(** * pygmc: protocol and configuration codec of the GMC Geiger counter client

    A shallow embedding of [pygmc.py].  The module talks to the instrument
    over a serial byte stream; its configuration record is described by a
    declarative [construct.Struct] table, written back one byte at a time.

    Conventions of the embedding:
    - a Python [bytes] object is a [list byte];
    - a Python [int] is a [Z];
    - a Python [str] is the list of its code points ([list Z]);
    - a [construct.Container] / [dict] is a [gmap string value];
    - an exception is a value of [exn] carried by [result];
    - the serial port is explicit state threaded through the [io] monad. *)

From Stdlib Require Import ZArith List Lia Bool.
From Stdlib Require Import Strings.String Strings.Ascii Strings.Byte.
From coqutil Require Import Byte.
From stdpp Require Import base option list gmap strings fin_maps.

Local Open Scope Z_scope.

(** ** Exceptions and the result type *)

Inductive exn : Type :=
| ValueError (expected actual : list byte)
    (* raise ValueError("Expected response '{}' but got '{}'".format(..)) *)
| StructError               (* struct.error *)
| StreamError               (* construct: not enough / wrong amount of data *)
| PaddingError              (* construct.FixedSized: subcon built too much *)
| StringError               (* construct.StringEncoded: not a str, not bytes,
                               or the codec failed *)
| FormatFieldError          (* construct.FormatField: struct.pack failed *)
| IntegerError              (* construct.BytesInteger: does not fit *)
| KeyError (name : string)  (* obj[name] on a missing key *)
| ChrValueError             (* chr() arg not in range(0x110000) *)
| UnicodeEncodeError        (* str.encode('ascii') on a code point >= 128 *)
| UnicodeDecodeError        (* bytes.decode('ascii') on a byte >= 0x80 *)
| DateValueError            (* datetime.datetime(...) out of range *)
| UnpackValueError          (* not enough values to unpack *)
| IndexError                (* list index out of range *)
| CsvError                  (* _csv.Error *)
| StopIteration             (* next() on an exhausted iterator *)
| OverflowError             (* chr() arg does not fit a C int *)
| NoFitValueError.          (* construct.lib.integer2bytes: does not fit *)

Inductive result (A : Type) : Type :=
| Ok (a : A)
| Err (e : exn).
Arguments Ok {A} a.
Arguments Err {A} e.

#[global] Instance result_ret : MRet result := fun A a => Ok a.
#[global] Instance result_bind : MBind result := fun A B f m =>
  match m with
  | Ok a => f a
  | Err e => Err e
  end.

(** ** Bytes *)

Abbreviation bytes := (list byte).

#[global] Instance byte_eq_dec : EqDecision byte := Byte.byte_eq_dec.

(** A bytes literal such as [b'GETVER']. *)
Definition b (s : string) : bytes := list_byte_of_string s.

(** Big-endian unsigned integers, as [int.from_bytes(data, 'big')] and
    [int.to_bytes(number, width, 'big')] compute them. *)
Definition bytes2integer (data : bytes) : Z :=
  fold_left (fun acc x => acc * 256 + byte.unsigned x) data 0.

Fixpoint integer2bytes (number : Z) (width : nat) : bytes :=
  match width with
  | O => []
  | S w => integer2bytes (number / 256) w ++ [byte.of_Z number]
  end.

Definition fits (number : Z) (width : nat) : bool :=
  (0 <=? number) && (number <? 256 ^ Z.of_nat width).

(** [data.rstrip(pad)] for a one-byte [pad]. *)
Fixpoint rstrip (pad : byte) (data : bytes) : bytes :=
  match data with
  | [] => []
  | x :: tl =>
      match rstrip pad tl with
      | [] => if decide (x = pad) then [] else [x]
      | tl' => x :: tl'
      end
  end.

(** [data.decode('ascii')] and [s.encode('ascii')]. *)
Fixpoint decode_ascii (data : bytes) : result (list Z) :=
  match data with
  | [] => Ok []
  | x :: tl =>
      if byte.unsigned x <? 128
      then s ← decode_ascii tl; Ok (byte.unsigned x :: s)
      else Err UnicodeDecodeError
  end.

Fixpoint encode_ascii (s : list Z) : result bytes :=
  match s with
  | [] => Ok []
  | c :: tl =>
      if (0 <=? c) && (c <? 128)
      then data ← encode_ascii tl; Ok (byte.of_Z c :: data)
      else Err UnicodeEncodeError
  end.

(** ** The part of [construct] used by [config_format] *)

Module Construct.

(** Field descriptions.  [Int8ub], [Int16ub] and [Int32ub] are
    [FormatField]s, [Int24ub] is [BytesInteger(3)], [PaddedString(n,
    'ascii')] is [StringEncoded(FixedSized(n, NullStripped(GreedyBytes)))],
    [Padding(n, pattern)] is [Padded(n, Pass, pattern)].  Errors are the
    ones of construct 2.10.70: a text that the codec cannot decode or
    encode raises [StringError], and [Bytes] given a number that does not
    fit raises the [ValueError] of [integer2bytes]. *)
Inductive subcon : Type :=
| Int8ub
| Int16ub
| Int24ub
| Int32ub
| PaddedString (n : nat)
| Bytes (n : nat)
| Padding (n : nat) (pattern : byte).

(** Values held by a parsed or to-be-built container. *)
Inductive value : Type :=
| VInt (z : Z)
| VStr (s : list Z)
| VBytes (data : bytes)
| VNone.

Definition sizeof (sc : subcon) : nat :=
  match sc with
  | Int8ub => 1
  | Int16ub => 2
  | Int24ub => 3
  | Int32ub => 4
  | PaddedString n => n
  | Bytes n => n
  | Padding n _ => n
  end.

(** [stream_read(stream, length)]: fails unless [length] bytes remain. *)
Definition stream_read (stream : bytes) (n : nat) : result (bytes * bytes) :=
  if (n <=? List.length stream)%nat
  then Ok (take n stream, drop n stream)
  else Err StreamError.

Definition parse_subcon (sc : subcon) (stream : bytes) : result (value * bytes) :=
  '(data, rest) ← stream_read stream (sizeof sc);
  match sc with
  | Int8ub | Int16ub | Int24ub | Int32ub => Ok (VInt (bytes2integer data), rest)
  | PaddedString _ =>
      match decode_ascii (rstrip Byte.x00 data) with
      | Ok s => Ok (VStr s, rest)
      | Err _ => Err StringError
      end
  | Bytes _ => Ok (VBytes data, rest)
  | Padding _ _ => Ok (VNone, rest)
  end.

Definition build_subcon (sc : subcon) (obj : value) : result bytes :=
  match sc with
  | Int8ub | Int16ub | Int32ub =>
      match obj with
      | VInt z => if fits z (sizeof sc) then Ok (integer2bytes z (sizeof sc))
                  else Err FormatFieldError
      | _ => Err FormatFieldError
      end
  | Int24ub =>
      match obj with
      | VInt z => if fits z 3 then Ok (integer2bytes z 3) else Err IntegerError
      | _ => Err IntegerError
      end
  | PaddedString n =>
      match obj with
      | VStr s =>
          match encode_ascii s with
          | Ok data =>
              if (List.length data <=? n)%nat
              then Ok (data ++ repeat Byte.x00 (n - List.length data))
              else Err PaddingError
          | Err _ => Err StringError
          end
      | _ => Err StringError
      end
  | Bytes n =>
      data ← match obj with
             | VBytes data => Ok data
             | VInt z => if fits z n then Ok (integer2bytes z n)
                         else Err NoFitValueError
             | _ => Err StringError
             end;
      if (List.length data =? n)%nat then Ok data else Err StreamError
  | Padding n pattern => Ok (repeat pattern n)
  end.

(** [Pass], and what wraps it, builds from a missing key. *)
Definition flagbuildnone (sc : subcon) : bool :=
  match sc with Padding _ _ => true | _ => false end.

(** [Struct._parse]: fields in declared order, each result stored under
    the field's name. *)
Fixpoint parse_struct (subcons : list (string * subcon)) (stream : bytes)
    (obj : gmap string value) : result (gmap string value * bytes) :=
  match subcons with
  | [] => Ok (obj, stream)
  | (name, sc) :: more =>
      '(subobj, rest) ← parse_subcon sc stream;
      parse_struct more rest (<[name := subobj]> obj)
  end.

(** [Struct._build]: [obj[name]] for each field, [obj.get(name)] for a
    field that builds from [None]. *)
Fixpoint build_struct (subcons : list (string * subcon))
    (obj : gmap string value) : result bytes :=
  match subcons with
  | [] => Ok []
  | (name, sc) :: more =>
      subobj ← (if flagbuildnone sc then Ok (default VNone (obj !! name))
                else match obj !! name with
                     | Some v => Ok v
                     | None => Err (KeyError name)
                     end);
      data ← build_subcon sc subobj;
      tail ← build_struct more obj;
      Ok (data ++ tail)
  end.

(** [Struct.parse(data)] and [Struct.build(obj)]. *)
Definition parse (subcons : list (string * subcon)) (data : bytes)
    : result (gmap string value) :=
  '(obj, _) ← parse_struct subcons data ∅; Ok obj.

Definition build (subcons : list (string * subcon)) (obj : gmap string value)
    : result bytes :=
  build_struct subcons obj.

Definition total_size (subcons : list (string * subcon)) : nat :=
  foldr (fun f acc => (sizeof f.2 + acc)%nat) 0%nat subcons.

End Construct.
Import Construct.

(** ** [config_format] *)

Definition config_format : list (string * subcon) := [
  ("power", Int8ub);
  ("alarm", Int8ub);
  ("speaker", Int8ub);
  ("idle_display_mode", Int8ub);
  ("back_light_timeout_seconds", Int8ub);
  ("idle_title_display_mode", Int8ub);
  ("alarm_CPM_value", Int16ub);
  ("calib_CPM_0", Int16ub);
  ("calib_uSv_0", Int32ub);
  ("calib_CPM_1", Int16ub);
  ("calib_uSv_1", Int32ub);
  ("calib_CPM_2", Int16ub);
  ("calib_uSv_2", Int32ub);
  ("idle_text_state", Int8ub);
  ("alarm_value_uSv", Int32ub);
  ("alarm_type", Int8ub);
  ("save_data_type", Int8ub);
  ("swivel_display", Int8ub);
  ("zoom", Int32ub);
  ("SPI_data_save_address", Int24ub);
  ("SPI_data_read_address", Int24ub);
  ("power_saving_mode", Int8ub);
  ("sensitivity_mode", Int8ub);
  ("counter_delay", Int16ub);
  ("display_contrast", Int8ub);
  ("max_CPM", Int16ub);
  ("unknown1", Int8ub);
  ("large_font_mode", Int8ub);
  ("LCD_back_light_level", Int8ub);
  ("reverse_display_mode", Int8ub);
  ("motion_detect", Int8ub);
  ("battery_type", Int8ub);
  ("baudrate", Int8ub);
  ("CPM_speaker_on_off_calib", Int8ub);
  ("graphic_drawing_mode", Int8ub);
  ("LED_on_off", Int8ub);
  ("unknown2", Int8ub);
  ("save_threshold_value_uSv_m_nCPM", Int16ub);
  ("save_threshold_mode", Int8ub);
  ("save_threshold_value", Int32ub);
  ("SSID", PaddedString 64);
  ("password", PaddedString 64);
  ("website", PaddedString 32);
  ("URL", PaddedString 32);
  ("user_ID", PaddedString 32);
  ("counter_ID", PaddedString 32);
  ("period", Int8ub);
  ("WIFI_on_off", Int8ub);
  ("text_status_mode", Int8ub);
  ("fast_estimate_time", Int8ub);
  ("third_party_output", Int8ub);
  ("high_voltage_level_tube_1", Int8ub);
  ("high_voltage_level_tube_2", Int8ub);
  ("CPM_tube_mode", Int8ub);
  ("CPM_tube_display", Int8ub);
  ("voltage_display", Int8ub);
  ("deadtime_enable", Int8ub);
  ("deadtime_tube_1", Int16ub);
  ("deadtime_tube_2", Int16ub);
  ("medium_threshold", Int16ub);
  ("high_threshold", Int16ub);
  ("speaker_volume", Int8ub);
  ("HV_reading", Int8ub);
  ("target_HV", Int16ub);
  ("HV_calib", Int8ub);
  ("SS1", Bytes 6);
  ("SS2", Bytes 6);
  ("SS3", Bytes 6);
  ("SS4", Bytes 6);
  ("accuracy_display", Int8ub);
  ("dose_alarm_0", Int8ub);
  ("dose_alarm_1", Int8ub);
  ("dose_alarm_2", Int8ub);
  ("dose_alarm_3", Int8ub);
  ("save_date_time", Bytes 6);
  ("unused", Padding 128 Byte.xff)
]%string.

(** ** [struct] formats used by the module

    The formats in the source are ['!I'], ['!B'], ['!H'] and ['!HHHx']:
    network byte order, no alignment.  A format is the list of its codes
    after the ['!']. *)

Module Struct.

Inductive code : Type :=
| Fmt_B   (* unsigned char, 1 byte *)
| Fmt_H   (* unsigned short, 2 bytes *)
| Fmt_I   (* unsigned int, 4 bytes *)
| Fmt_x.  (* pad byte, no value *)

Definition code_size (c : code) : nat :=
  match c with
  | Fmt_B => 1
  | Fmt_H => 2
  | Fmt_I => 4
  | Fmt_x => 1
  end.

Definition calcsize (fmt : list code) : nat :=
  foldr (fun c acc => (code_size c + acc)%nat) 0%nat fmt.

Fixpoint unpack_from (fmt : list code) (data : bytes) : list Z :=
  match fmt with
  | [] => []
  | Fmt_x :: more => unpack_from more (drop 1 data)
  | c :: more =>
      bytes2integer (take (code_size c) data)
        :: unpack_from more (drop (code_size c) data)
  end.

(** [struct.unpack(fmt, data)]: the buffer must have exactly
    [calcsize(fmt)] bytes. *)
Definition unpack (fmt : list code) (data : bytes) : result (list Z) :=
  if (List.length data =? calcsize fmt)%nat
  then Ok (unpack_from fmt data)
  else Err StructError.

(** [struct.pack('!H', v)] and [struct.pack('!B', v)]. *)
Definition pack1 (c : code) (v : Z) : result bytes :=
  match c with
  | Fmt_x => Err StructError
  | _ => if fits v (code_size c) then Ok (integer2bytes v (code_size c))
         else Err StructError
  end.

End Struct.
Import Struct.

(** ** The serial port and [GMCConnection] *)

(** What the instrument sends is a sequence of read events: [Some x] is a
    byte arriving within the read timeout, [None] is a read that times out
    (and [serial.read()] returns [b'']).  Once the list is exhausted every
    read times out.  [written] logs each [write] call in order. *)
Record Serial : Type := MkSerial {
  written : list bytes;
  incoming : list (option byte)
}.

(** Computations on the port that may raise. *)
Definition io (A : Type) : Type := Serial -> result A * Serial.

#[global] Instance io_ret : MRet io := fun A a s => (Ok a, s).
#[global] Instance io_bind : MBind io := fun A B f m s =>
  match m s with
  | (Ok a, s') => f a s'
  | (Err e, s') => (Err e, s')
  end.

Definition lift {A} (r : result A) : io A := fun s => (r, s).

Definition OK : bytes := [Byte.xaa].

Module GMCConnection.

(** [self.connection.write(ascii_data)] *)
Definition write (ascii_data : bytes) : io Z := fun s =>
  (Ok (Z.of_nat (List.length ascii_data)),
   MkSerial (written s ++ [ascii_data]) (incoming s)).

(** [while new_data := self.connection.read(): buffer += new_data] *)
Fixpoint read_until_idle (events : list (option byte))
    : bytes * list (option byte) :=
  match events with
  | Some x :: more =>
      let '(buffer, rest) := read_until_idle more in (x :: buffer, rest)
  | None :: more => ([], more)
  | [] => ([], [])
  end.

Definition read_all : io bytes := fun s =>
  let '(buffer, rest) := read_until_idle (incoming s) in
  (Ok buffer, MkSerial (written s) rest).

(** What [send_command] returns: the raw bytes, one number, or a tuple. *)
Inductive response_value : Type :=
| Raw (data : bytes)
| Scalar (z : Z)
| Tuple (items : list Z).

(** Truth value of an optional [bytes] argument: [None] and [b''] are
    false. *)
Definition truthy (o : option bytes) : bool :=
  match o with
  | Some (_ :: _) => true
  | _ => false
  end.

Definition send_command (command : bytes)
    (response_format : option (list code))
    (expected_response : option bytes) : io response_value :=
  let to_send := b "<" ++ command ++ b ">>" in
  _ ← write to_send;
  response ← read_all;
  if truthy expected_response
     && negb (bool_decide (Some response = expected_response))
  then lift (Err (ValueError (default [] expected_response) response))
  else
    match response_format with
    | Some fmt =>
        unpacked ← lift (unpack fmt response);
        match unpacked with
        | [v] => mret (Scalar v)
        | _ => mret (Tuple unpacked)
        end
    | None => mret (Raw response)
    end.

End GMCConnection.
Import GMCConnection.

(** ** [datetime.datetime] *)

Record datetime : Type := MkDatetime {
  year : Z; month : Z; day : Z; hour : Z; minute : Z; second : Z
}.

Definition is_leap (y : Z) : bool :=
  (y mod 4 =? 0) && (negb (y mod 100 =? 0) || (y mod 400 =? 0)).

Definition days_in_month (y m : Z) : Z :=
  if m =? 2 then (if is_leap y then 29 else 28)
  else if (m =? 4) || (m =? 6) || (m =? 9) || (m =? 11) then 30
  else 31.

Definition valid_datetime (dt : datetime) : bool :=
  (1 <=? year dt) && (year dt <=? 9999)
  && (1 <=? month dt) && (month dt <=? 12)
  && (1 <=? day dt) && (day dt <=? days_in_month (year dt) (month dt))
  && (0 <=? hour dt) && (hour dt <=? 23)
  && (0 <=? minute dt) && (minute dt <=? 59)
  && (0 <=? second dt) && (second dt <=? 59).

(** The constructor [datetime.datetime(y, m, d, h, mi, s)]. *)
Definition datetime_new (y m d h mi s : Z) : result datetime :=
  let dt := MkDatetime y m d h mi s in
  if valid_datetime dt then Ok dt else Err DateValueError.

(** ** Helpers of the module *)

(** [chr(i)]: [ValueError] outside [range(0x110000)], [OverflowError] when
    [i] does not fit a C [int]. *)
Definition chr (i : Z) : result Z :=
  if (0 <=? i) && (i <? 1114112) then Ok i
  else if (-2147483648 <=? i) && (i <? 2147483648) then Err ChrValueError
  else Err OverflowError.

Definition ord (c : Z) : Z := c.

(** [hex_byte = lambda x: chr(x).encode('ascii')] *)
Definition hex_byte (x : Z) : result bytes :=
  c ← chr x; encode_ascii [c].

(** ** [csv.reader] and [csv.DictReader], default (excel) dialect

    Delimiter comma, quote character the double quote, doubled quotes, no
    escape character, not strict.  A line is a [str]; the input is any
    iterable of lines. *)

Module Csv.

Inductive ParserState : Type :=
| START_RECORD
| START_FIELD
| IN_FIELD
| IN_QUOTED_FIELD
| QUOTE_IN_QUOTED_FIELD
| EAT_CRNL.

#[global] Instance ParserState_eq_dec : EqDecision ParserState.
Proof. solve_decision. Defined.

Record Reader : Type := MkReader {
  state : ParserState;
  fields : list (list Z);   (* fields of the record, in order *)
  field : list Z            (* the field being collected *)
}.

Definition delimiter : Z := 44.   (* , *)
Definition quotechar : Z := 34.   (* the double quote *)
Definition CR : Z := 13.
Definition LF : Z := 10.
Definition field_limit : Z := 131072.

Definition parse_reset : Reader := MkReader START_RECORD [] [].

Definition set_state (self : Reader) (st : ParserState) : Reader :=
  MkReader st (fields self) (field self).

(** [parse_save_field], followed by the state the caller moves to. *)
Definition parse_save_field (self : Reader) (st : ParserState) : Reader :=
  MkReader st (fields self ++ [field self]) [].

(** [parse_add_char], followed by the state the caller moves to. *)
Definition parse_add_char (self : Reader) (c : Z) (st : ParserState)
    : result Reader :=
  if field_limit <=? Z.of_nat (List.length (field self)) then Err CsvError
  else Ok (MkReader st (fields self) (field self ++ [c])).

Definition is_newline (c : Z) : bool := (c =? LF) || (c =? CR).

(** The [START_FIELD] case; [START_RECORD] falls through to it. *)
Definition start_field (self : Reader) (c : option Z) : result Reader :=
  match c with
  | None => Ok (parse_save_field self START_RECORD)
  | Some ch =>
      if is_newline ch then Ok (parse_save_field self EAT_CRNL)
      else if ch =? quotechar then Ok (set_state self IN_QUOTED_FIELD)
      else if ch =? delimiter then Ok (parse_save_field self START_FIELD)
      else parse_add_char self ch IN_FIELD
  end.

(** [parse_process_char]; [None] is the end-of-line marker [EOL]. *)
Definition parse_process_char (self : Reader) (c : option Z) : result Reader :=
  match state self with
  | START_RECORD =>
      match c with
      | None => Ok self
      | Some ch =>
          if is_newline ch then Ok (set_state self EAT_CRNL)
          else start_field (set_state self START_FIELD) c
      end
  | START_FIELD => start_field self c
  | IN_FIELD =>
      match c with
      | None => Ok (parse_save_field self START_RECORD)
      | Some ch =>
          if is_newline ch then Ok (parse_save_field self EAT_CRNL)
          else if ch =? delimiter then Ok (parse_save_field self START_FIELD)
          else parse_add_char self ch IN_FIELD
      end
  | IN_QUOTED_FIELD =>
      match c with
      | None => Ok self
      | Some ch =>
          if ch =? quotechar then Ok (set_state self QUOTE_IN_QUOTED_FIELD)
          else parse_add_char self ch IN_QUOTED_FIELD
      end
  | QUOTE_IN_QUOTED_FIELD =>
      match c with
      | None => Ok (parse_save_field self START_RECORD)
      | Some ch =>
          if ch =? quotechar then parse_add_char self ch IN_QUOTED_FIELD
          else if ch =? delimiter then Ok (parse_save_field self START_FIELD)
          else if is_newline ch then Ok (parse_save_field self EAT_CRNL)
          else parse_add_char self ch IN_FIELD
      end
  | EAT_CRNL =>
      match c with
      | None => Ok (set_state self START_RECORD)
      | Some ch => if is_newline ch then Ok self else Err CsvError
      end
  end.

(** One line: its characters, then [EOL]. *)
Fixpoint process_line (self : Reader) (line : list Z) : result Reader :=
  match line with
  | [] => parse_process_char self None
  | c :: more =>
      self' ← parse_process_char self (Some c);
      process_line self' more
  end.

(** The rows the reader yields, in order, from parser state [self].  A
    row is complete when a line ends in [START_RECORD]; at the end of the
    input a pending field is flushed as a last row.  An error ends the
    iteration. *)
Fixpoint rows_from (self : Reader) (lines : list (list Z))
    : list (result (list (list Z))) :=
  match lines with
  | [] =>
      if bool_decide (field self ≠ [])
         || bool_decide (state self = IN_QUOTED_FIELD)
      then [Ok (fields (parse_save_field self START_RECORD))]
      else []
  | line :: more =>
      match process_line self line with
      | Err e => [Err e]
      | Ok self' =>
          if bool_decide (state self' = START_RECORD)
          then Ok (fields self') :: rows_from parse_reset more
          else rows_from self' more
      end
  end.

Definition reader (csvfile : list (list Z)) : list (result (list (list Z))) :=
  rows_from parse_reset csvfile.

(** A cell of the dictionary a [DictReader] returns: a field, [None]
    (the [restval]) or the list of surplus fields stored under the
    [restkey], which is [None] as well. *)
Inductive cell : Type :=
| CStr (s : list Z)
| CNone
| CList (l : list (list Z)).

Fixpoint zip_fields (fieldnames : list string) (row : list (list Z))
    (d : gmap (option string) cell) : gmap (option string) cell :=
  match fieldnames, row with
  | [], [] => d
  | [], _ :: _ => <[None := CList row]> d
  | key :: keys, [] => zip_fields keys [] (<[Some key := CNone]> d)
  | key :: keys, v :: vs => zip_fields keys vs (<[Some key := CStr v]> d)
  end.

(** [DictReader.__next__] on the rows still to come: blank rows are
    skipped, the first other row is zipped with the field names. *)
Fixpoint DictReader_next (fieldnames : list string)
    (rows : list (result (list (list Z))))
    : result (gmap (option string) cell) :=
  match rows with
  | [] => Err StopIteration
  | Err e :: _ => Err e
  | Ok [] :: more => DictReader_next fieldnames more
  | Ok row :: _ => Ok (zip_fields fieldnames row ∅)
  end.

End Csv.

(** ** [GMCGeigerCounter] *)

Definition AP_STATUS_FIELDS : list string := [
  "ssid"; "bssid"; "channel"; "rssi"; "pci_en"; "reconn_interval";
  "listen_interval"; "scan_mode"; "pmf"
]%string.

(** A [str] literal. *)
Definition str (s : string) : list Z := map byte.unsigned (list_byte_of_string s).

(** [s.split('\r\n')] *)
Definition push_char (c : Z) (lines : list (list Z)) : list (list Z) :=
  match lines with
  | line :: more => (c :: line) :: more
  | [] => [[c]]
  end.

Fixpoint split_crlf (s : list Z) : list (list Z) :=
  match s with
  | [] => [[]]
  | c :: more =>
      match more with
      | c' :: more' =>
          if (c =? 13) && (c' =? 10) then [] :: split_crlf more'
          else push_char c (split_crlf more)
      | [] => [[c]]
      end
  end.

Module GMCGeigerCounter.

Definition write_config_byte (address data_byte : Z) : io unit :=
  address_bytes ← lift (pack1 Fmt_H address);
  data_byte_bytes ← lift (pack1 Fmt_B data_byte);
  let to_write := b "WCFG" ++ address_bytes ++ data_byte_bytes in
  _ ← send_command to_write None (Some OK);
  mret tt.

(** [for address, byte in enumerate(to_write): ...], from [address] on. *)
Fixpoint write_config_bytes (address : Z) (to_write : bytes) : io unit :=
  match to_write with
  | [] => mret tt
  | byte :: more =>
      _ ← write_config_byte address (byte.unsigned byte);
      write_config_bytes (address + 1) more
  end.

Definition set_config (config : gmap string value) : io unit :=
  to_write ← lift (build config_format config);
  write_config_bytes 0 to_write.

Definition parse_datetime (timestamp_bytes : bytes) : result datetime :=
  items ← mapM (fun x => c ← chr (byte.unsigned x); Ok (ord c))
               (take 6 timestamp_bytes);
  match items with
  | [y; m; d; h; mi; s] => datetime_new (y + 2000) m d h mi s
  | _ => Err UnpackValueError
  end.

Definition set_datetime (datetime : datetime) : io response_value :=
  to_send ← lift (
    yy ← hex_byte (year datetime - 2000);
    mm ← hex_byte (month datetime);
    dd ← hex_byte (day datetime);
    hh ← hex_byte (hour datetime);
    mi ← hex_byte (minute datetime);
    ss ← hex_byte (second datetime);
    Ok (b "SETDATETIME" ++ yy ++ mm ++ dd ++ hh ++ mi ++ ss));
  send_command to_send None (Some OK).

Definition alarm_on : io unit :=
  _ ← send_command (b "ALARM1") None (Some OK);
  mret tt.

Definition set_date_yy (year : Z) : io response_value :=
  payload ← lift (hex_byte year);
  send_command (b "SETDATEYY" ++ payload) (Some [Fmt_B]) (Some OK).

(** [time.sleep(wait)] has no effect on the model: what the instrument
    sent during the wait is in [incoming] already. *)
Definition at_command (command : list Z) : io (list (list Z)) :=
  encoded ← lift (encode_ascii command);
  _ ← write (b "<AT+" ++ encoded ++ b ">>");
  data ← read_all;
  text ← lift (decode_ascii data);
  mret (split_crlf text).

Definition get_wifi_status : io (gmap (option string) Csv.cell) :=
  response ← at_command (str "CWJAP?");
  match response !! 1%nat with
  | None => lift (Err IndexError)
  | Some line =>
      (* iterating a [str] yields its characters, each taken as a line *)
      let csvfile := map (fun c => [c]) (drop 7 line) in
      lift (Csv.DictReader_next AP_STATUS_FIELDS (Csv.reader csvfile))
  end.

End GMCGeigerCounter.
Import GMCGeigerCounter.

(** ** Predicates used in the statements *)

Definition is_ascii (x : byte) : bool := byte.unsigned x <? 128.

(** What a region of the record must hold for the codec to reproduce it:
    a text field is ASCII, a padding region holds its fill pattern. *)
Definition region_ok (sc : subcon) (region : bytes) : bool :=
  match sc with
  | PaddedString _ => forallb is_ascii region
  | Padding n pattern => bool_decide (region = repeat pattern n)
  | _ => true
  end.

Definition names (subcons : list (string * subcon)) : list string := subcons.*1.

(** [region_ok] for every field, walking the table over the buffer. *)
Fixpoint regions_ok (subcons : list (string * subcon)) (data : bytes) : bool :=
  match subcons with
  | [] => true
  | (_, sc) :: more =>
      region_ok sc (take (sizeof sc) data)
      && regions_ok more (drop (sizeof sc) data)
  end.


(** The records the codec reproduces: 512 bytes, ASCII text fields, the
    reserved tail filled with [0xFF]. *)
Definition well_formed (data : bytes) : bool :=
  (List.length data =? 512)%nat && regions_ok config_format data.

(** ** Sample inputs *)

Definition pad_to (n : nat) (data : bytes) : bytes :=
  data ++ repeat Byte.x00 (n - List.length data).

Definition sample_buffer : bytes :=
  map byte.of_Z (seqZ 1 69)
  ++ pad_to 64 (b "HomeNet") ++ pad_to 64 (b "secret")
  ++ pad_to 32 (b "www.gmcmap.com") ++ pad_to 32 (b "log2.asp")
  ++ pad_to 32 (b "0123") ++ pad_to 32 (b "4567")
  ++ map byte.of_Z (seqZ 100 59)
  ++ repeat Byte.xff 128.

Definition buffer_256 : bytes := take 256 sample_buffer.

Definition default_value (sc : subcon) : value :=
  match sc with
  | PaddedString _ => VStr []
  | Bytes n => VBytes (repeat Byte.x00 n)
  | Padding _ _ => VNone
  | _ => VInt 0
  end.

Definition default_config : gmap string value :=
  list_to_map (map (fun f => (f.1, default_value f.2)) config_format).

(** What the next [n] calls of [read_all] return, and the read events
    left after them. *)
Fixpoint responses (n : nat) (events : list (option byte))
    : list bytes * list (option byte) :=
  match n with
  | O => ([], events)
  | S n' =>
      let '(r, rest) := read_until_idle events in
      let '(rs, rest') := responses n' rest in
      (r :: rs, rest')
  end.

(** The framed patch command for one byte of the record: [WCFG], the
    address as two bytes, most significant first, then the byte. *)
Definition WCFG (address : Z) (x : byte) : bytes :=
  b "<WCFG" ++ [byte.of_Z (address / 256); byte.of_Z address; x] ++ b ">>".

Fixpoint config_commands (address : Z) (to_write : bytes) : list bytes :=
  match to_write with
  | [] => []
  | x :: more => WCFG address x :: config_commands (address + 1) more
  end.

(** An instrument that acknowledges the next [n] commands. *)
Definition acks (n : nat) : list (option byte) :=
  concat (repeat [Some Byte.xaa; None] n).

(** The number of values a format yields: every code but the pad byte. *)
Definition has_value (c : code) : bool :=
  match c with Fmt_x => false | _ => true end.

Definition nfields (fmt : list code) : nat :=
  List.length (List.filter has_value fmt).

(** The six payload bytes of a date-time, each the component itself. *)
Definition datetime_payload (dt : datetime) : bytes :=
  map byte.of_Z
    [year dt - 2000; month dt; day dt; hour dt; minute dt; second dt].

(** What an instrument joined to the network [Net1] answers to
    [AT+CWJAP?]: the echoed command, the status line, a blank line and
    [OK], separated by CR LF. *)
Definition CRLF : bytes := [Byte.x0d; Byte.x0a].
Definition quoted (s : string) : bytes := [Byte.x22] ++ b s ++ [Byte.x22].

Definition wifi_status_line : bytes :=
  b "+CWJAP:" ++ quoted "Net1" ++ b "," ++ quoted "aa:bb:cc:dd:ee:ff"
  ++ b ",6,-45,0,0,0,0,0".

Definition wifi_status_response : bytes :=
  b "AT+CWJAP?" ++ CRLF ++ wifi_status_line ++ CRLF ++ CRLF ++ b "OK" ++ CRLF.

(** The values a returned dictionary holds under the nine field names, in
    the order of [AP_STATUS_FIELDS]. *)
Definition status_values (r : result (gmap (option string) Csv.cell))
    : result (list (option Csv.cell)) :=
  d ← r; Ok (map (fun key => d !! Some key) AP_STATUS_FIELDS).

(** A parser state between two one-character lines of a row. *)
Definition between_lines (self : Csv.Reader) : Prop :=
  self = Csv.parse_reset
  \/ (Csv.state self = Csv.IN_QUOTED_FIELD /\ Csv.fields self = []).

(** ** Values after a round trip through the codec *)

(** [s.rstrip('\0')] on a [str]. *)
Fixpoint strip_nul (s : list Z) : list Z :=
  match s with
  | [] => []
  | c :: tl =>
      match strip_nul tl with
      | [] => if c =? 0 then [] else [c]
      | tl' => c :: tl'
      end
  end.

(** What decoding gives for a field that was encoded from [obj]. *)
Definition decoded (sc : subcon) (obj : value) : value :=
  match sc, obj with
  | PaddedString _, VStr s => VStr (strip_nul s)
  | Bytes n, VInt z => VBytes (integer2bytes z n)
  | Padding _ _, _ => VNone
  | _, _ => obj
  end.

Definition is_ascii_char (c : Z) : bool := (0 <=? c) && (c <? 128).

(** The values a field of the given kind encodes without an error. *)
Definition acceptable (sc : subcon) (obj : value) : bool :=
  match sc, obj with
  | (Int8ub | Int16ub | Int24ub | Int32ub), VInt z => fits z (sizeof sc)
  | PaddedString n, VStr s =>
      forallb is_ascii_char s && (List.length s <=? n)%nat
  | Bytes n, VBytes data => (List.length data =? n)%nat
  | Bytes n, VInt z => fits z n
  | Padding _ _, _ => true
  | _, _ => false
  end.

(** A configuration with a network name that ends in null characters and
    a zoom factor. *)
Definition sample_config : gmap string value :=
  <["SSID" := VStr (str "Net" ++ [0; 49; 0; 0])]>
    (<["zoom" := VInt 1000]> default_config).

(** ** More of [GMCGeigerCounter] *)

(** The bytes of a response returned without a [response_format]; then
    [send_command] returns the bytes it read (see
    [send_command_returns_bytes]). *)
Definition response_bytes (v : response_value) : bytes :=
  match v with
  | Raw data => data
  | _ => []
  end.

Definition get_ver : io (list Z) :=
  response ← send_command (b "GETVER") None None;
  lift (decode_ascii (response_bytes response)).

Definition get_CPM : io response_value :=
  send_command (b "GETCPM") (Some [Fmt_I]) None.

Definition get_gyro : io response_value :=
  send_command (b "GETGYRO") (Some [Fmt_H; Fmt_H; Fmt_H; Fmt_x]) None.

Definition get_config : io (gmap string value) :=
  raw_config ← send_command (b "GETCFG") None None;
  lift (parse config_format (response_bytes raw_config)).

Definition get_datetime : io datetime :=
  response ← send_command (b "GETDATETIME") None None;
  lift (parse_datetime (response_bytes response)).

Definition set_date_mm (month : Z) : io response_value :=
  payload ← lift (hex_byte month);
  send_command (b "SETDATEMM" ++ payload) (Some [Fmt_B]) (Some OK).

Definition set_date_dd (day : Z) : io response_value :=
  payload ← lift (hex_byte day);
  send_command (b "SETDATEDD" ++ payload) (Some [Fmt_B]) (Some OK).

(** [date] is any object with [year], [month] and [day]. *)
Definition set_date (date : datetime) : io unit :=
  _ ← set_date_yy (year date - 2000);
  _ ← set_date_mm (month date);
  _ ← set_date_dd (day date);
  mret tt.

Definition set_time_hh (hour : Z) : io response_value :=
  payload ← lift (hex_byte hour);
  send_command (b "SETTIMEHH" ++ payload) (Some [Fmt_B]) (Some OK).

Definition set_time_mm (minute : Z) : io response_value :=
  payload ← lift (hex_byte minute);
  send_command (b "SETTIMEMM" ++ payload) (Some [Fmt_B]) (Some OK).

Definition set_time_ss (second : Z) : io response_value :=
  payload ← lift (hex_byte second);
  send_command (b "SETTIMESS" ++ payload) (Some [Fmt_B]) (Some OK).

(** [time] is any object with [hour], [minute] and [second]. *)
Definition set_time (time : datetime) : io unit :=
  _ ← set_time_ss (second time);
  _ ← set_time_mm (minute time);
  _ ← set_time_hh (hour time);
  mret tt.

Definition set_SSID (ssid : list Z) : io unit :=
  encoded ← lift (encode_ascii ssid);
  _ ← send_command (b "SETSSID" ++ encoded) None (Some OK);
  mret tt.

(** The frame [send_command] writes for a command. *)
Definition frame (command : bytes) : bytes := b "<" ++ command ++ b ">>".

(** ** Shapes shared by the setters *)

(** The six setters of the date and the time share one shape; [setter] is
    that shape, and each of them is [setter] at its own command (see
    [setters_shape]). *)
Definition setter (command : bytes) (v : Z) : io response_value :=
  payload ← lift (hex_byte v);
  send_command (command ++ payload) (Some [Fmt_B]) (Some OK).

(** Setters called one after the other, each result dropped. *)
Fixpoint run_setters (steps : list (bytes * Z)) : io unit :=
  match steps with
  | [] => mret tt
  | (command, v) :: more => _ ← setter command v; run_setters more
  end.

(** The frames they write: the command followed by the value as one byte. *)
Definition setter_frames (steps : list (bytes * Z)) : list bytes :=
  map (fun step => frame (step.1 ++ [byte.of_Z step.2])) steps.

Definition date_steps (date : datetime) : list (bytes * Z) :=
  [(b "SETDATEYY", year date - 2000); (b "SETDATEMM", month date);
   (b "SETDATEDD", day date)].

Definition time_steps (time : datetime) : list (bytes * Z) :=
  [(b "SETTIMESS", second time); (b "SETTIMEMM", minute time);
   (b "SETTIMEHH", hour time)].

(** ** The rest of [GMCGeigerCounter] *)

Definition get_CPS : io response_value :=
  send_command (b "GETCPS") (Some [Fmt_I]) None.

Definition get_CPML : io response_value :=
  send_command (b "GETCPML") (Some [Fmt_I]) None.

Definition get_CPMH : io response_value :=
  send_command (b "GETCPMH") (Some [Fmt_I]) None.

Definition get_CPSL : io response_value :=
  send_command (b "GETCPSL") (Some [Fmt_I]) None.

Definition get_CPSH : io response_value :=
  send_command (b "GETCPSH") (Some [Fmt_I]) None.

Definition erase_config : io unit :=
  _ ← send_command (b "ECFG") None (Some OK);
  mret tt.

Definition reload_config : io unit :=
  _ ← send_command (b "CFGUPDATE") None (Some OK);
  mret tt.

Definition factory_reset : io unit :=
  _ ← send_command (b "FACTORYRESET") None (Some OK);
  mret tt.

Definition power_on : io response_value :=
  send_command (b "POWERON") None None.

Definition power_off : io response_value :=
  send_command (b "POWEROFF") None None.

Definition alarm_off : io unit :=
  _ ← send_command (b "ALARM0") None (Some OK);
  mret tt.

Definition speaker_on : io unit :=
  _ ← send_command (b "SPEAKER1") None (Some OK);
  mret tt.

Definition speaker_off : io unit :=
  _ ← send_command (b "SPEAKER0") None (Some OK);
  mret tt.

Definition wifi_on : io unit :=
  _ ← send_command (b "WiFiON") None (Some OK);
  mret tt.

Definition wifi_off : io unit :=
  _ ← send_command (b "WiFiOFF") None (Some OK);
  mret tt.

(** [bytes.hex()]: two lowercase hexadecimal digits per byte. *)
Definition hex_digit (d : Z) : Z := if d <? 10 then 48 + d else 87 + d.

Definition hex (data : bytes) : list Z :=
  flat_map (fun x => [hex_digit (byte.unsigned x / 16);
                      hex_digit (byte.unsigned x mod 16)]) data.

Definition get_serial : io (list Z) :=
  response ← send_command (b "GETSERIAL") None None;
  mret (hex (response_bytes response)).

Definition reboot : io response_value :=
  send_command (b "REBOOT") None None.

Definition get_temperature : io response_value :=
  send_command (b "GETTEMP") None None.

(** [s.split(sep)] for a separator that is not empty: the pieces between
    the occurrences of [sep], found from the left and not overlapping.
    [skip] counts the characters of a found separator still to pass. *)
Fixpoint starts_with (sep s : list Z) : bool :=
  match sep, s with
  | [], _ => true
  | _ :: _, [] => false
  | a :: sep', c :: s' => (a =? c) && starts_with sep' s'
  end.

Fixpoint split_from (sep : list Z) (skip : nat) (s : list Z) : list (list Z) :=
  match s with
  | [] => [[]]
  | c :: more =>
      match skip with
      | S k => split_from sep k more
      | O =>
          if starts_with sep s
          then [] :: split_from sep (List.length sep - 1) more
          else push_char c (split_from sep 0 more)
      end
  end.

Definition split (sep s : list Z) : list (list Z) := split_from sep 0 s.

(** [str.isspace] of one character, and [s.strip()]. *)
Definition isspace (c : Z) : bool :=
  ((9 <=? c) && (c <=? 13)) || ((28 <=? c) && (c <=? 32))
  || (c =? 133) || (c =? 160) || (c =? 5760)
  || ((8192 <=? c) && (c <=? 8202))
  || (c =? 8232) || (c =? 8233) || (c =? 8239) || (c =? 8287) || (c =? 12288).

Fixpoint lstrip (s : list Z) : list Z :=
  match s with
  | [] => []
  | c :: more => if isspace c then lstrip more else s
  end.

Definition strip (s : list Z) : list Z := rev (lstrip (rev (lstrip s))).

Definition disconnect_wifi : io (list (list Z)) :=
  at_command (str "CWQAP").

Definition wifi_auto_connect (enable : bool) : io (list (list Z)) :=
  at_command (str "CWAUTOCONN=" ++ (if enable then str "1" else str "0")).

(** [response[1].split('MAC:')[1].strip()[1:-1]] *)
Definition get_MAC_address : io (list Z) :=
  response ← at_command (str "CIPSTAMAC?");
  match response !! 1%nat with
  | None => lift (Err IndexError)
  | Some line =>
      match split (str "MAC:") line !! 1%nat with
      | None => lift (Err IndexError)
      | Some piece =>
          let stripped := strip piece in
          mret (drop 1 (take (List.length stripped - 1) stripped))
      end
  end.

Definition set_wifi_password (password : list Z) : io unit :=
  encoded ← lift (encode_ascii password);
  _ ← send_command (b "SETWIFIPW" ++ encoded) None (Some OK);
  mret tt.

(** The first two statements of [list_wifi_networks]: the response of
    [AT+CWLAP] and the list [data] of what each line after the first holds
    between its first [:(] and its last character.  The statements after
    them, which read [data] as CSV rows, are not modelled. *)
Definition list_wifi_networks_data : io (list (list Z)) :=
  raw_response ← at_command (str "CWLAP");
  lift (mapM (fun d =>
                match split (str ":(") d !! 1%nat with
                | None => Err IndexError
                | Some piece => Ok (take (List.length piece - 1) piece)
                end)
             (drop 1 raw_response)).

(** ** More notions used in the statements *)

(** [sep.join(lines)] *)
Fixpoint join (sep : list Z) (lines : list (list Z)) : list Z :=
  match lines with
  | [] => []
  | line :: more =>
      match more with
      | [] => line
      | _ :: _ => line ++ sep ++ join sep more
      end
  end.

Definition contains (sep s : list Z) : Prop :=
  exists before after, s = before ++ sep ++ after.

(** The operations that send one command and want the acknowledgement. *)
Definition acknowledged : list (io unit * bytes) :=
  [(erase_config, b "ECFG"); (reload_config, b "CFGUPDATE");
   (factory_reset, b "FACTORYRESET"); (alarm_on, b "ALARM1");
   (alarm_off, b "ALARM0"); (speaker_on, b "SPEAKER1");
   (speaker_off, b "SPEAKER0"); (wifi_on, b "WiFiON");
   (wifi_off, b "WiFiOFF")].

(** The six counters. *)
Definition counters : list (io response_value * bytes) :=
  [(get_CPM, b "GETCPM"); (get_CPS, b "GETCPS"); (get_CPML, b "GETCPML");
   (get_CPMH, b "GETCPMH"); (get_CPSL, b "GETCPSL"); (get_CPSH, b "GETCPSH")].

(** The operations that return the response as it comes. *)
Definition unchecked : list (io response_value * bytes) :=
  [(power_on, b "POWERON"); (power_off, b "POWEROFF"); (reboot, b "REBOOT");
   (get_temperature, b "GETTEMP")].

(** The operations that send a text. *)
Definition text_setters : list ((list Z -> io unit) * bytes) :=
  [(set_SSID, b "SETSSID"); (set_wifi_password, b "SETWIFIPW")].

(** * Properties *)

(** ** Big-endian integers, stripping, ASCII *)

Section BytesFacts.

Lemma byte_unsigned_range x : 0 <= byte.unsigned x < 256.
Proof. exact (byte.unsigned_range x). Qed.

Lemma integer2bytes_length number width :
  List.length (integer2bytes number width) = width.
Proof.
  revert number. induction width as [|w IH]; intros number; simpl; [done|].
  rewrite length_app, IH. simpl. lia.
Qed.

Lemma bytes2integer_snoc data x :
  bytes2integer (data ++ [x]) = bytes2integer data * 256 + byte.unsigned x.
Proof. unfold bytes2integer. by rewrite fold_left_app. Qed.

Lemma bytes2integer_range data :
  0 <= bytes2integer data < 256 ^ Z.of_nat (List.length data).
Proof.
  induction data as [|x data IH] using rev_ind; [by vm_compute|].
  rewrite bytes2integer_snoc, length_app. simpl.
  pose proof (byte_unsigned_range x) as Hx.
  replace (Z.of_nat (List.length data + 1)) with (Z.succ (Z.of_nat (List.length data))) by lia.
  rewrite Z.pow_succ_r by lia. lia.
Qed.

Lemma fits_bytes2integer data : fits (bytes2integer data) (List.length data) = true.
Proof.
  unfold fits. pose proof (bytes2integer_range data).
  apply andb_true_intro; split; [apply Z.leb_le | apply Z.ltb_lt]; lia.
Qed.

(** Building what was parsed gives the bytes back. *)
Lemma integer2bytes_bytes2integer data :
  integer2bytes (bytes2integer data) (List.length data) = data.
Proof.
  induction data as [|x data IH] using rev_ind; [done|].
  rewrite bytes2integer_snoc, length_app, Nat.add_comm. simpl.
  pose proof (byte_unsigned_range x) as Hx.
  assert ((bytes2integer data * 256 + byte.unsigned x) / 256
          = bytes2integer data) as ->.
  { symmetry. apply Z.div_unique with (r := byte.unsigned x); lia. }
  rewrite IH. do 2 f_equal.
  apply byte.unsigned_inj. rewrite byte.unsigned_of_Z.
  unfold byte.wrap. symmetry.
  apply Z.mod_unique with (q := bytes2integer data); lia.
Qed.

(** Parsing what was built gives the number back. *)
Lemma bytes2integer_integer2bytes number width :
  fits number width = true ->
  bytes2integer (integer2bytes number width) = number.
Proof.
  unfold fits. rewrite andb_true_iff, Z.leb_le, Z.ltb_lt.
  revert number. induction width as [|w IH]; intros number [Hlo Hhi].
  - change (256 ^ Z.of_nat 0) with 1 in Hhi.
    change (bytes2integer (integer2bytes number 0)) with 0. lia.
  - simpl. rewrite bytes2integer_snoc, byte.unsigned_of_Z. unfold byte.wrap.
    rewrite Nat2Z.inj_succ, Z.pow_succ_r in Hhi by lia.
    rewrite IH.
    + change (2 ^ 8) with 256. pose proof (Z.div_mod number 256). lia.
    + split; [apply Z.div_pos; lia|].
      apply Z.div_lt_upper_bound; lia.
Qed.

Lemma rstrip_spec pad data :
  exists k, data = rstrip pad data ++ repeat pad k.
Proof.
  induction data as [|x tl [k IH]]; [by exists 0%nat|].
  simpl. destruct (rstrip pad tl) as [|y tl'] eqn:E.
  - destruct (decide (x = pad)) as [->|Hne].
    + exists (S k). simpl. simpl in IH. by rewrite IH at 1.
    + exists k. simpl in *. by rewrite IH at 1.
  - exists k. simpl. by rewrite IH at 1.
Qed.

Lemma rstrip_sublist pad data x : x ∈ rstrip pad data -> x ∈ data.
Proof.
  destruct (rstrip_spec pad data) as [k Hk]. intros Hin.
  rewrite Hk. apply elem_of_app. by left.
Qed.

Lemma rstrip_length pad data :
  (List.length (rstrip pad data) <= List.length data)%nat.
Proof.
  destruct (rstrip_spec pad data) as [k Hk].
  rewrite Hk at 2. rewrite length_app. lia.
Qed.

Lemma rstrip_pad pad data :
  rstrip pad data
    ++ repeat pad (List.length data - List.length (rstrip pad data)) = data.
Proof.
  destruct (rstrip_spec pad data) as [k Hk].
  assert (List.length data = (List.length (rstrip pad data) + k)%nat) as ->.
  { rewrite Hk at 1. by rewrite length_app, repeat_length. }
  replace (List.length (rstrip pad data) + k - List.length (rstrip pad data))%nat
    with k by lia.
  by symmetry.
Qed.

Lemma decode_ascii_Ok data :
  forallb is_ascii data = true ->
  decode_ascii data = Ok (map byte.unsigned data).
Proof.
  induction data as [|x tl IH]; [done|]. simpl.
  rewrite andb_true_iff. intros [Hx Htl]. unfold is_ascii in Hx.
  rewrite Hx, IH by done. done.
Qed.

Lemma decode_ascii_inv data s :
  decode_ascii data = Ok s ->
  forallb is_ascii data = true /\ s = map byte.unsigned data.
Proof.
  revert s. induction data as [|x tl IH]; intros s; simpl.
  - by intros [= <-].
  - change (is_ascii x) with (byte.unsigned x <? 128).
    destruct (byte.unsigned x <? 128); [|done].
    destruct (decode_ascii tl) as [s'|] eqn:E; [|done].
    intros [= <-]. destruct (IH s' eq_refl) as [-> ->]. done.
Qed.

Lemma encode_ascii_unsigned data :
  forallb is_ascii data = true ->
  encode_ascii (map byte.unsigned data) = Ok data.
Proof.
  induction data as [|x tl IH]; [done|]. simpl.
  rewrite andb_true_iff. change (is_ascii x) with (byte.unsigned x <? 128).
  rewrite Z.ltb_lt.
  intros [Hx Htl]. pose proof (byte_unsigned_range x) as Hr.
  replace (0 <=? byte.unsigned x) with true by (symmetry; apply Z.leb_le; lia).
  replace (byte.unsigned x <? 128) with true by (symmetry; apply Z.ltb_lt; lia).
  simpl. rewrite IH by done. simpl. by rewrite byte.of_Z_unsigned.
Qed.

Lemma encode_ascii_length s data :
  encode_ascii s = Ok data -> List.length data = List.length s.
Proof.
  revert data. induction s as [|c tl IH]; intros data; simpl.
  - by intros [= <-].
  - destruct ((0 <=? c) && (c <? 128)); [|done].
    destruct (encode_ascii tl) as [d|] eqn:E; [|done].
    intros [= <-]. simpl. by rewrite (IH d).
Qed.

Lemma forallb_is_ascii_rstrip pad data :
  forallb is_ascii data = true -> forallb is_ascii (rstrip pad data) = true.
Proof.
  rewrite !forallb_forall. intros H x Hx. apply H.
  apply list_elem_of_In, (rstrip_sublist pad), list_elem_of_In, Hx.
Qed.

End BytesFacts.

(** ** The codec: [Struct.parse] and [Struct.build] *)

Section ConstructFacts.

Lemma stream_read_app data rest :
  stream_read (data ++ rest) (List.length data) = Ok (data, rest).
Proof.
  unfold stream_read. rewrite length_app.
  replace (List.length data <=? List.length data + List.length rest)%nat with true
    by (symmetry; apply Nat.leb_le; lia).
  by rewrite take_app_length, drop_app_length.
Qed.

Lemma stream_read_inv stream n data rest :
  stream_read stream n = Ok (data, rest) ->
  stream = data ++ rest /\ List.length data = n.
Proof.
  unfold stream_read. destruct (n <=? List.length stream)%nat eqn:E; [|done].
  apply Nat.leb_le in E. intros [= <- <-]. split.
  - by rewrite take_drop.
  - rewrite length_take. lia.
Qed.

Lemma parse_subcon_inv sc stream v rest :
  parse_subcon sc stream = Ok (v, rest) ->
  exists data, stream = data ++ rest /\ List.length data = sizeof sc.
Proof.
  unfold parse_subcon.
  destruct (stream_read stream (sizeof sc)) as [[data rest']|] eqn:E; [|done].
  apply stream_read_inv in E as [-> Hlen]. simpl.
  destruct sc; simpl; try (intros [= <- <-]; eauto).
  destruct (decode_ascii _); simpl; [|done]. intros [= <- <-]; eauto.
Qed.

Lemma build_subcon_length sc obj data :
  build_subcon sc obj = Ok data -> List.length data = sizeof sc.
Proof.
  destruct sc; simpl.
  1-4: destruct obj; try done;
       match goal with |- context [fits ?z ?w] => destruct (fits z w) end;
       try done; intros [= <-]; reflexivity.
  - destruct obj; try done.
    destruct (encode_ascii s) as [d|]; simpl; [|done].
    destruct (List.length d <=? n)%nat eqn:E; [|done].
    apply Nat.leb_le in E. intros [= <-].
    rewrite length_app, repeat_length. lia.
  - destruct obj; simpl; try done.
    + destruct (fits z n); simpl; [|done].
      destruct (_ =? n)%nat eqn:E; [|done]. intros [= <-]. by apply Nat.eqb_eq.
    + destruct (_ =? n)%nat eqn:E; [|done]. intros [= <-]. by apply Nat.eqb_eq.
  - intros [= <-]. apply repeat_length.
Qed.

Lemma parse_build_subcon sc data rest :
  List.length data = sizeof sc ->
  region_ok sc data = true ->
  exists v, parse_subcon sc (data ++ rest) = Ok (v, rest)
            /\ build_subcon sc v = Ok data.
Proof.
  intros Hlen Hok. unfold parse_subcon.
  rewrite <- Hlen, stream_read_app. simpl.
  destruct sc; cbn [sizeof region_ok] in *.
  1-4: eexists; split; [done|]; cbn [build_subcon sizeof]; rewrite <- Hlen;
       rewrite fits_bytes2integer; by rewrite integer2bytes_bytes2integer.
  - rewrite (decode_ascii_Ok (rstrip Byte.x00 data))
      by by apply forallb_is_ascii_rstrip.
    simpl. eexists; split; [done|]. simpl.
    rewrite encode_ascii_unsigned by by apply forallb_is_ascii_rstrip.
    simpl. pose proof (rstrip_length Byte.x00 data) as Hle.
    replace (_ <=? n)%nat with true by (symmetry; apply Nat.leb_le; lia).
    by rewrite <- Hlen, rstrip_pad.
  - eexists; split; [done|]. simpl. by rewrite Hlen, Nat.eqb_refl.
  - eexists; split; [done|]. apply bool_decide_eq_true in Hok. by rewrite Hok.
Qed.

Lemma parse_struct_frame subcons : forall stream obj obj' rest name,
  parse_struct subcons stream obj = Ok (obj', rest) ->
  name ∉ names subcons ->
  obj' !! name = obj !! name.
Proof.
  induction subcons as [|[n sc] more IH]; intros stream obj obj' rest name; simpl.
  - by intros [= <- <-].
  - destruct (parse_subcon sc stream) as [[v r]|]; simpl; [|done].
    intros Hp Hnot. apply not_elem_of_cons in Hnot as [Hne Hnot].
    rewrite (IH _ _ _ _ _ Hp Hnot). by rewrite lookup_insert_ne.
Qed.

Lemma parse_struct_consumes subcons : forall stream obj obj' rest,
  parse_struct subcons stream obj = Ok (obj', rest) ->
  (total_size subcons <= List.length stream)%nat
  /\ rest = drop (total_size subcons) stream.
Proof.
  induction subcons as [|[n sc] more IH]; intros stream obj obj' rest; simpl.
  - intros [= <- <-]. split; [lia|done].
  - destruct (parse_subcon sc stream) as [[v r]|] eqn:E; simpl; [|done].
    apply parse_subcon_inv in E as (data & -> & Hlen).
    intros Hp. apply IH in Hp as [Hle ->]. rewrite length_app. split; [lia|].
    rewrite <- Hlen, <- drop_drop, drop_app_length. done.
Qed.

Lemma build_struct_length subcons obj data :
  build_struct subcons obj = Ok data -> List.length data = total_size subcons.
Proof.
  revert data. induction subcons as [|[n sc] more IH]; intros data; simpl.
  - by intros [= <-].
  - destruct (if flagbuildnone sc then _ else _) as [v|]; simpl; [|done].
    destruct (build_subcon sc v) as [d|] eqn:E; simpl; [|done].
    destruct (build_struct more obj) as [t|]; simpl; [|done].
    intros [= <-]. rewrite length_app, (IH t eq_refl).
    by rewrite (build_subcon_length _ _ _ E).
Qed.

Lemma build_struct_ext subcons obj1 obj2 :
  (forall name, name ∈ names subcons -> obj1 !! name = obj2 !! name) ->
  build_struct subcons obj1 = build_struct subcons obj2.
Proof.
  induction subcons as [|[n sc] more IH]; intros Heq; simpl; [done|].
  rewrite (Heq n) by (simpl; left).
  rewrite IH; [done|]. intros name Hin. apply Heq. simpl. by right.
Qed.

Lemma parse_build_struct subcons : forall data obj,
  NoDup (names subcons) ->
  (total_size subcons <= List.length data)%nat ->
  regions_ok subcons data = true ->
  exists obj', parse_struct subcons data obj
                 = Ok (obj', drop (total_size subcons) data)
               /\ build_struct subcons obj' = Ok (take (total_size subcons) data).
Proof.
  induction subcons as [|[n sc] more IH]; intros data obj Hnd Hlen Hok; simpl.
  - exists obj. by rewrite drop_0, take_0.
  - simpl in *. apply NoDup_cons in Hnd as [Hn Hnd].
    apply andb_true_iff in Hok as [Hsc Hmore].
    destruct (parse_build_subcon sc (take (sizeof sc) data) (drop (sizeof sc) data))
      as (v & Hp & Hb); [rewrite length_take; lia|done|].
    rewrite take_drop in Hp. rewrite Hp. simpl.
    destruct (IH (drop (sizeof sc) data) (<[n:=v]> obj) Hnd) as (obj' & Hp' & Hb');
      [rewrite length_drop; lia|done|].
    exists obj'. rewrite Hp', drop_drop. split; [done|].
    assert (obj' !! n = Some v) as Hv.
    { rewrite (parse_struct_frame _ _ _ _ _ _ Hp' Hn). apply lookup_insert_eq. }
    rewrite Hv. replace (if flagbuildnone sc then _ else _) with (Ok v)
      by by destruct (flagbuildnone sc).
    simpl. rewrite Hb. simpl. rewrite Hb'. simpl.
    by rewrite take_take_drop.
Qed.

End ConstructFacts.

(** ** The configuration record *)

Lemma config_format_NoDup : NoDup (names config_format).
Proof. apply (bool_decide_unpack _). vm_compute. exact I. Qed.

Lemma config_format_total_size : total_size config_format = 512%nat.
Proof. reflexivity. Qed.

(** C1, as amended: a well-formed 512-byte record (ASCII text fields, the
    reserved 128-byte tail filled with 0xFF) decodes, and encoding the
    decoded value gives the same 512 bytes back. *)
Theorem config_round_trip (data : bytes) :
  well_formed data = true ->
  exists obj, parse config_format data = Ok obj
              /\ build config_format obj = Ok data.
Proof.
  unfold well_formed. rewrite andb_true_iff, Nat.eqb_eq. intros [Hlen Hok].
  pose proof (parse_build_struct config_format data ∅ config_format_NoDup) as H.
  rewrite config_format_total_size in H.
  destruct H as (obj & Hp & Hb); [lia|exact Hok|].
  exists obj. unfold parse, build. rewrite Hp, Hb. split; [reflexivity|].
  rewrite <- Hlen, firstn_all. reflexivity.
Qed.

Lemma config_round_trip_witness :
  exists obj, parse config_format sample_buffer = Ok obj
              /\ build config_format obj = Ok sample_buffer.
Proof. apply (config_round_trip sample_buffer). vm_compute. reflexivity. Defined.

(** The reserved tail survives only when it holds the fill byte: decoding
    drops it and encoding writes [0xFF]. *)
Lemma reserved_tail_rewritten :
  (obj ← parse config_format (repeat Byte.x00 512); build config_format obj)
  = Ok (repeat Byte.x00 384 ++ repeat Byte.xff 128).
Proof. vm_compute. reflexivity. Qed.

(** A text field loses its trailing null bytes only; a null inside the
    text is kept, and a byte from 0x80 on makes decoding fail. *)
Lemma text_field_decoding :
  parse_subcon (PaddedString 8)
    (b "ab" ++ [Byte.x00] ++ b "cd" ++ repeat Byte.x00 3)
  = Ok (VStr [97; 98; 0; 99; 100], [])
  /\ parse_subcon (PaddedString 4) (b "ab" ++ [Byte.x80; Byte.x00])
     = Err StringError.
Proof. split; vm_compute; reflexivity. Qed.

(** C1 as stated fails: a 256-byte buffer does not decode at all. *)
Lemma config_round_trip_256_fails :
  List.length buffer_256 = 256%nat
  /\ ~ (exists obj, parse config_format buffer_256 = Ok obj
                    /\ build config_format obj = Ok buffer_256).
Proof.
  split; [vm_compute; reflexivity|]. intros (obj & Hp & _).
  assert (parse config_format buffer_256 = Err StreamError) as E
    by (vm_compute; reflexivity).
  rewrite E in Hp. discriminate Hp.
Qed.

Lemma build_config_length obj data :
  build config_format obj = Ok data -> List.length data = 512%nat.
Proof.
  intros Hb. unfold build in Hb. apply build_struct_length in Hb.
  rewrite config_format_total_size in Hb. exact Hb.
Qed.

(** C2, as amended: the declared widths sum to 512; a successful decode
    consumes exactly the first 512 bytes, and every successful encode
    yields exactly 512 bytes. *)
Theorem config_format_size :
  total_size config_format = 512%nat
  /\ (forall data obj rest,
        parse_struct config_format data ∅ = Ok (obj, rest) ->
        (512 <= List.length data)%nat /\ rest = drop 512 data)
  /\ (forall obj data,
        build config_format obj = Ok data -> List.length data = 512%nat).
Proof.
  split; [exact config_format_total_size|]. split.
  - intros data obj rest Hp.
    apply parse_struct_consumes in Hp.
    rewrite config_format_total_size in Hp. exact Hp.
  - exact build_config_length.
Qed.

Lemma config_format_size_witness :
  (exists obj rest, parse_struct config_format sample_buffer ∅ = Ok (obj, rest)
                    /\ (512 <= List.length sample_buffer)%nat
                    /\ rest = drop 512 sample_buffer)
  /\ (exists data, build config_format default_config = Ok data
                   /\ List.length data = 512%nat).
Proof.
  destruct config_format_size as (_ & Hparse & Hbuild). split.
  - destruct (parse_build_struct config_format sample_buffer ∅
                config_format_NoDup) as (obj & E & _);
      [vm_compute; lia | vm_compute; reflexivity |].
    eexists obj, _. split; [exact E|]. exact (Hparse _ _ _ E).
  - assert (exists data, build config_format default_config = Ok data)
      as (data & E) by (vm_compute; eauto).
    exists data. split; [exact E|]. exact (Hbuild _ _ E).
Defined.

(** C2 as stated fails: the widths do not sum to 256, and an encoded
    configuration is not 256 bytes long. *)
Lemma config_format_size_not_256 :
  total_size config_format <> 256%nat
  /\ exists data, build config_format default_config = Ok data
                  /\ List.length data <> 256%nat.
Proof.
  split; [vm_compute; discriminate|].
  assert (exists data, build config_format default_config = Ok data)
    as (data & E) by (vm_compute; eauto).
  exists data. split; [exact E|].
  unfold build in E. apply build_struct_length in E.
  rewrite E, config_format_total_size. discriminate.
Qed.

(** ** Overflowing a text field *)

Lemma build_struct_app before after obj :
  build_struct (before ++ after) obj
  = (head ← build_struct before obj;
     tail ← build_struct after obj;
     Ok (head ++ tail)).
Proof.
  induction before as [|[n sc] more IH]; simpl.
  - destruct (build_struct after obj); reflexivity.
  - destruct (if flagbuildnone sc then _ else _) as [v|]; simpl; [|reflexivity].
    destruct (build_subcon sc v) as [d|]; simpl; [|reflexivity].
    rewrite IH.
    destruct (build_struct more obj) as [h|]; simpl; [|reflexivity].
    destruct (build_struct after obj) as [t|]; simpl; [|reflexivity].
    by rewrite app_assoc.
Qed.

Lemma encode_ascii_Ok s :
  Forall (fun c => 0 <= c < 128) s ->
  exists data, encode_ascii s = Ok data /\ List.length data = List.length s.
Proof.
  induction 1 as [|c tl Hc _ (data & Henc & Hlen)]; [by exists []|].
  simpl.
  replace ((0 <=? c) && (c <? 128)) with true.
  - rewrite Henc. simpl. eexists; split; [reflexivity|]. simpl. by rewrite Hlen.
  - symmetry. apply andb_true_intro. split; [apply Z.leb_le | apply Z.ltb_lt]; lia.
Qed.

(** C6: a text field whose value is one byte longer than its declared
    width makes the encoder fail, with [PaddingError] (the FieldOverflow of
    the specification) once the fields before it have been built; no
    buffer is returned. *)
Theorem text_field_overflow (config : gmap string value) (name : string)
    (n : nat) (s : list Z) (before after : list (string * subcon)) :
  config_format = before ++ (name, PaddedString n) :: after ->
  config !! name = Some (VStr s) ->
  Forall (fun c => 0 <= c < 128) s ->
  List.length s = S n ->
  (exists e, build config_format config = Err e)
  /\ (forall head, build_struct before config = Ok head ->
                   build config_format config = Err PaddingError).
Proof.
  intros Htable Hlookup Hascii Hlen.
  destruct (encode_ascii_Ok s Hascii) as (data & Henc & Hdata).
  assert (build_struct ((name, PaddedString n) :: after) config = Err PaddingError)
    as Hfield.
  { simpl. rewrite Hlookup. simpl. rewrite Henc. simpl.
    replace (List.length data <=? n)%nat with false; [reflexivity|].
    symmetry. apply Nat.leb_gt. lia. }
  unfold build. rewrite Htable, build_struct_app, Hfield. split.
  - destruct (build_struct before config); simpl; eauto.
  - intros head ->. reflexivity.
Qed.

Lemma text_field_overflow_witness :
  build config_format (<["SSID" := VStr (repeat 65 65)]> default_config)
  = Err PaddingError.
Proof.
  assert (exists head, build_struct (take 40 config_format)
            (<["SSID" := VStr (repeat 65 65)]> default_config) = Ok head)
    as [head Hhead] by (vm_compute; eauto).
  refine (proj2 (text_field_overflow
            (<["SSID" := VStr (repeat 65 65)]> default_config) "SSID" 64
            (repeat 65 65) (take 40 config_format) (drop 41 config_format)
            _ _ _ _) head Hhead).
  - vm_compute; reflexivity.
  - vm_compute; reflexivity.
  - apply Forall_forall. intros c Hc.
    apply list_elem_of_In, repeat_spec in Hc. lia.
  - vm_compute; reflexivity.
Defined.

(** ** Commands on the serial port *)

Ltac io_unfold :=
  unfold mbind, io_bind, mret, io_ret, lift, write, read_all in *.

Lemma send_command_expect_OK command s r rest :
  read_until_idle (incoming s) = (r, rest) ->
  send_command command None (Some OK) s
  = (if decide (r = OK) then Ok (Raw r) else Err (ValueError OK r),
     MkSerial (written s ++ [b "<" ++ command ++ b ">>"]) rest).
Proof.
  intros Hread. unfold send_command. io_unfold. cbn [written incoming].
  rewrite Hread. cbn [truthy OK default andb].
  destruct (decide (r = OK)) as [->|Hne].
  - rewrite bool_decide_eq_true_2 by reflexivity. reflexivity.
  - rewrite bool_decide_eq_false_2 by congruence. reflexivity.
Qed.

Lemma write_config_byte_spec address x s r rest :
  0 <= address < 65536 ->
  read_until_idle (incoming s) = (r, rest) ->
  write_config_byte address (byte.unsigned x) s
  = (if decide (r = OK) then Ok () else Err (ValueError OK r),
     MkSerial (written s ++ [WCFG address x]) rest).
Proof.
  intros Haddr Hread. unfold write_config_byte, pack1, fits.
  replace ((0 <=? address) && (address <? 256 ^ Z.of_nat (code_size Fmt_H)))
    with true
    by (symmetry; apply andb_true_intro; split;
        [apply Z.leb_le | apply Z.ltb_lt]; cbn; lia).
  pose proof (byte_unsigned_range x) as Hx.
  replace ((0 <=? byte.unsigned x)
           && (byte.unsigned x <? 256 ^ Z.of_nat (code_size Fmt_B)))
    with true
    by (symmetry; apply andb_true_intro; split;
        [apply Z.leb_le | apply Z.ltb_lt]; cbn; lia).
  cbn [code_size integer2bytes app]. rewrite byte.of_Z_unsigned.
  unfold mbind at 1 2 3, io_bind, lift.
  rewrite (send_command_expect_OK _ s r rest Hread).
  unfold WCFG, b. cbn [list_byte_of_string app].
  destruct (decide (r = OK)); reflexivity.
Qed.

Lemma responses_S n events :
  responses (S n) events
  = (let '(r, rest) := read_until_idle events in
     let '(rs, rest') := responses n rest in (r :: rs, rest')).
Proof. reflexivity. Qed.

(** The patch loop when every command is acknowledged. *)
Lemma write_config_bytes_ok to_write : forall address s,
  0 <= address ->
  address + Z.of_nat (List.length to_write) <= 65536 ->
  (responses (List.length to_write) (incoming s)).1
    = repeat OK (List.length to_write) ->
  write_config_bytes address to_write s
  = (Ok (),
     MkSerial (written s ++ config_commands address to_write)
              (responses (List.length to_write) (incoming s)).2).
Proof.
  induction to_write as [|x more IH]; intros address s Hlo Hhi Hacks.
  - cbn. rewrite app_nil_r. by destruct s.
  - cbn [List.length] in *. rewrite responses_S in *.
    destruct (read_until_idle (incoming s)) as [r rest] eqn:Hread.
    cbn [write_config_bytes config_commands].
    unfold mbind at 1, io_bind.
    rewrite (write_config_byte_spec address x s r rest) by (done || lia).
    specialize (IH (address + 1) (MkSerial (written s ++ [WCFG address x]) rest)).
    cbn [incoming written] in IH.
    destruct (responses (List.length more) rest) as [rs rest'] eqn:Hrs.
    cbn [fst snd] in *. injection Hacks as -> ->.
    rewrite decide_True by reflexivity.
    rewrite IH by (done || lia). by rewrite <- app_assoc.
Qed.

(** The patch loop when command number [k] is the first one refused. *)
Lemma write_config_bytes_fail to_write : forall address s k r,
  0 <= address ->
  address + Z.of_nat (List.length to_write) <= 65536 ->
  (k < List.length to_write)%nat ->
  (responses (S k) (incoming s)).1 = repeat OK k ++ [r] ->
  r <> OK ->
  write_config_bytes address to_write s
  = (Err (ValueError OK r),
     MkSerial (written s ++ take (S k) (config_commands address to_write))
              (responses (S k) (incoming s)).2).
Proof.
  induction to_write as [|x more IH]; intros address s k r Hlo Hhi Hk Hresp Hr.
  - cbn in Hk. lia.
  - cbn [List.length] in *. rewrite responses_S in *.
    destruct (read_until_idle (incoming s)) as [r0 rest] eqn:Hread.
    cbn [write_config_bytes config_commands].
    unfold mbind at 1, io_bind.
    rewrite (write_config_byte_spec address x s r0 rest) by (done || lia).
    destruct k as [|k].
    + cbn in Hresp. injection Hresp as ->.
      rewrite decide_False by done. cbn. reflexivity.
    + specialize (IH (address + 1)
                     (MkSerial (written s ++ [WCFG address x]) rest) k r).
      cbn [incoming written] in IH.
      destruct (responses (S k) rest) as [rs rest'] eqn:Hrs.
      cbn [fst snd repeat app] in *. injection Hresp as -> ->.
      rewrite decide_True by reflexivity.
      rewrite IH by (done || lia). cbn [take]. by rewrite <- app_assoc.
Qed.

Lemma config_commands_imap to_write : forall address,
  config_commands address to_write
  = imap (fun i x => WCFG (address + Z.of_nat i) x) to_write.
Proof.
  induction to_write as [|x more IH]; intros address; [done|].
  cbn [config_commands]. rewrite imap_cons.
  change (Z.of_nat 0) with 0. rewrite Z.add_0_r. f_equal.
  rewrite IH. apply imap_ext. intros i y _. cbn [compose].
  replace (address + 1 + Z.of_nat i) with (address + Z.of_nat (S i)) by lia.
  reflexivity.
Qed.

Lemma config_commands_0 to_write :
  config_commands 0 to_write = imap (fun i x => WCFG (Z.of_nat i) x) to_write.
Proof. rewrite config_commands_imap. apply imap_ext. intros. by rewrite Z.add_0_l. Qed.

(** ** Writing the configuration back *)

(** C3, as amended: for a configuration that encodes, [set_config] issues
    one [WCFG] command per byte of the 512-byte record, for the addresses
    0, 1, ..., 511 in this order, each carrying the two-byte big-endian
    address and the byte at that address; a command is issued only after
    the one before it was acknowledged. *)
Theorem set_config_commands (config : gmap string value) (to_write : bytes)
    (s : Serial) :
  build config_format config = Ok to_write ->
  let commands := imap (fun i x => WCFG (Z.of_nat i) x) to_write in
  List.length commands = 512%nat
  /\ ((responses 512 (incoming s)).1 = repeat OK 512 ->
      set_config config s
      = (Ok (), MkSerial (written s ++ commands)
                         (responses 512 (incoming s)).2))
  /\ (forall k r,
        (k < 512)%nat ->
        (responses (S k) (incoming s)).1 = repeat OK k ++ [r] ->
        r <> OK ->
        written (set_config config s).2 = written s ++ take (S k) commands).
Proof.
  intros Hbuild commands.
  assert (List.length to_write = 512%nat) as Hlen
    by exact (build_config_length _ _ Hbuild).
  split; [unfold commands; by rewrite length_imap|].
  assert (set_config config s = write_config_bytes 0 to_write s) as ->.
  { unfold set_config. unfold mbind at 1, io_bind, lift. by rewrite Hbuild. }
  unfold commands. rewrite <- config_commands_0. split.
  - intros Hacks. rewrite <- Hlen in *.
    apply write_config_bytes_ok; [lia|lia|exact Hacks].
  - intros k r Hk Hresp Hr.
    rewrite (write_config_bytes_fail to_write 0 s k r); [done|lia|lia|lia|done|done].
Qed.

Lemma set_config_commands_witness :
  set_config default_config (MkSerial [] (acks 512))
  = (Ok (), MkSerial (imap (fun i x => WCFG (Z.of_nat i) x)
                           (repeat Byte.x00 384 ++ repeat Byte.xff 128)) []).
Proof.
  assert (build config_format default_config
          = Ok (repeat Byte.x00 384 ++ repeat Byte.xff 128)) as Hbuild
    by (vm_compute; reflexivity).
  destruct (set_config_commands default_config _ (MkSerial [] (acks 512)) Hbuild)
    as (_ & Hok & _).
  rewrite Hok; vm_compute; reflexivity.
Defined.

(** C3 as stated fails: over an instrument that acknowledges everything,
    512 commands are issued, and the command after address 255 is the one
    for address 256; an instrument that acknowledges 256 commands only
    makes [set_config] raise. *)
Lemma set_config_not_256_commands :
  let s' := (set_config default_config (MkSerial [] (acks 512))).2 in
  List.length (written s') <> 256%nat
  /\ written s' !! 256%nat = Some (WCFG 256 Byte.x00)
  /\ (set_config default_config (MkSerial [] (acks 256))).1
     = Err (ValueError OK []).
Proof. vm_compute. split; [discriminate|]. split; reflexivity. Qed.

(** C4, as amended: when command number [k] is the first one not
    acknowledged, [set_config] raises at once: exactly the commands 0..k
    have been written, nothing is written afterwards (no rollback), and
    the error carries the expected and the received bytes only. *)
Theorem set_config_stops_at_first_failure (config : gmap string value)
    (to_write : bytes) (s : Serial) (k : nat) (r : bytes) :
  build config_format config = Ok to_write ->
  (k < 512)%nat ->
  (responses (S k) (incoming s)).1 = repeat OK k ++ [r] ->
  r <> OK ->
  set_config config s
  = (Err (ValueError OK r),
     MkSerial (written s
               ++ take (S k) (imap (fun i x => WCFG (Z.of_nat i) x) to_write))
              (responses (S k) (incoming s)).2).
Proof.
  intros Hbuild Hk Hresp Hr.
  assert (List.length to_write = 512%nat) as Hlen
    by exact (build_config_length _ _ Hbuild).
  unfold set_config. unfold mbind at 1, io_bind, lift.
  rewrite Hbuild, <- config_commands_0.
  apply write_config_bytes_fail; [lia|lia|lia|exact Hresp|exact Hr].
Qed.

Lemma set_config_stops_at_first_failure_witness :
  set_config default_config (MkSerial [] (acks 3 ++ [Some Byte.x00; None] ++ acks 5))
  = (Err (ValueError OK [Byte.x00]),
     MkSerial [WCFG 0 Byte.x00; WCFG 1 Byte.x00; WCFG 2 Byte.x00; WCFG 3 Byte.x00]
              (acks 5)).
Proof.
  assert (build config_format default_config
          = Ok (repeat Byte.x00 384 ++ repeat Byte.xff 128)) as Hbuild
    by (vm_compute; reflexivity).
  rewrite (set_config_stops_at_first_failure default_config _ _ 3 [Byte.x00] Hbuild);
    [reflexivity | lia | vm_compute; reflexivity | discriminate].
Defined.

(** C4 as stated fails: the error raised is the same whether no byte or
    three bytes had been written and acknowledged, so it does not report
    that number. *)
Lemma set_config_error_has_no_count :
  ~ exists count : exn -> nat, forall s e,
      written s = [] ->
      (set_config default_config s).1 = Err e ->
      S (count e) = List.length (written (set_config default_config s).2).
Proof.
  intros [count H].
  pose proof (H (MkSerial [] [Some Byte.x00; None])
                (ValueError OK [Byte.x00]) eq_refl) as H0.
  pose proof (H (MkSerial [] (acks 3 ++ [Some Byte.x00; None]))
                (ValueError OK [Byte.x00]) eq_refl) as H3.
  assert (S (count (ValueError OK [Byte.x00])) = 1%nat) as E0
    by (rewrite H0; vm_compute; reflexivity).
  assert (S (count (ValueError OK [Byte.x00])) = 4%nat) as E3
    by (rewrite H3; vm_compute; reflexivity).
  congruence.
Qed.

(** C5: whatever the instrument answers to the alarm-on command, if it is
    not the single byte 0xAA the operation raises the mismatch error,
    which carries the expected and the received bytes; the command itself
    is the only thing written. *)
Theorem alarm_on_mismatch (s : Serial) (r : bytes) (rest : list (option byte)) :
  read_until_idle (incoming s) = (r, rest) ->
  r <> [Byte.xaa] ->
  alarm_on s
  = (Err (ValueError [Byte.xaa] r),
     MkSerial (written s ++ [b "<ALARM1>>"]) rest).
Proof.
  intros Hread Hr. unfold alarm_on. unfold mbind at 1, io_bind.
  rewrite (send_command_expect_OK _ s r rest Hread).
  rewrite decide_False by exact Hr. reflexivity.
Qed.

Lemma alarm_on_mismatch_witness :
  alarm_on (MkSerial [] [Some Byte.x55; Some Byte.xaa; None; Some Byte.xaa])
  = (Err (ValueError [Byte.xaa] [Byte.x55; Byte.xaa]),
     MkSerial [b "<ALARM1>>"] [Some Byte.xaa]).
Proof.
  apply (alarm_on_mismatch (MkSerial [] [Some Byte.x55; Some Byte.xaa; None; Some Byte.xaa])).
  - reflexivity.
  - discriminate.
Defined.

(** ** Decoding fixed-width responses *)

Lemma unpack_from_length fmt : forall data,
  List.length (unpack_from fmt data) = nfields fmt.
Proof.
  induction fmt as [|c more IH]; intros data; [done|].
  destruct c; cbn [unpack_from]; unfold nfields in *; cbn; by rewrite IH.
Qed.

Lemma send_command_format command fmt expected s response rest :
  read_until_idle (incoming s) = (response, rest) ->
  (truthy expected = true -> expected = Some response) ->
  send_command command (Some fmt) expected s
  = (match unpack fmt response with
     | Ok [v] => Ok (Scalar v)
     | Ok items => Ok (Tuple items)
     | Err e => Err e
     end,
     MkSerial (written s ++ [b "<" ++ command ++ b ">>"]) rest).
Proof.
  intros Hread Hexp. unfold send_command. io_unfold. cbn [written incoming].
  rewrite Hread.
  destruct (truthy expected) eqn:Ht.
  - rewrite (Hexp eq_refl), bool_decide_eq_true_2 by reflexivity.
    cbn [negb andb].
    destruct (unpack fmt response) as [[|v [|w items]]|e]; reflexivity.
  - cbn [andb].
    destruct (unpack fmt response) as [[|v [|w items]]|e]; reflexivity.
Qed.

(** C8: with a format of exactly one field the decoded value is returned
    as a scalar; with more than one field the whole tuple is returned. *)
Theorem send_command_scalar_or_tuple (command : bytes) (fmt : list code)
    (expected : option bytes) (s : Serial) (response : bytes)
    (rest : list (option byte)) :
  read_until_idle (incoming s) = (response, rest) ->
  (truthy expected = true -> expected = Some response) ->
  List.length response = calcsize fmt ->
  let items := unpack_from fmt response in
  List.length items = nfields fmt
  /\ (nfields fmt = 1%nat ->
      exists v, items = [v]
                /\ (send_command command (Some fmt) expected s).1 = Ok (Scalar v))
  /\ ((1 < nfields fmt)%nat ->
      (send_command command (Some fmt) expected s).1 = Ok (Tuple items)).
Proof.
  intros Hread Hexp Hlen items.
  pose proof (unpack_from_length fmt response) as Hitems. fold items in Hitems.
  rewrite (send_command_format _ _ _ _ _ _ Hread Hexp). cbn [fst].
  unfold unpack. rewrite Hlen, Nat.eqb_refl. fold items.
  split; [exact Hitems|]. split.
  - intros H1. rewrite H1 in Hitems.
    destruct items as [|v [|w more]]; try discriminate Hitems. by exists v.
  - intros H1. rewrite <- Hitems in H1.
    destruct items as [|v [|w more]]; cbn in H1; try lia. reflexivity.
Qed.

Lemma send_command_scalar_or_tuple_witness :
  (send_command (b "GETCPM") (Some [Fmt_I]) None
     (MkSerial [] [Some Byte.x00; Some Byte.x00; Some Byte.x01; Some Byte.x02])).1
  = Ok (Scalar 258)
  /\ (send_command (b "GETGYRO") (Some [Fmt_H; Fmt_H; Fmt_H; Fmt_x]) None
        (MkSerial [] (map Some (b "abcdefg")))).1
     = Ok (Tuple [24930; 25444; 25958]).
Proof.
  split.
  - destruct (send_command_scalar_or_tuple (b "GETCPM") [Fmt_I] None
                (MkSerial [] [Some Byte.x00; Some Byte.x00; Some Byte.x01; Some Byte.x02])
                [Byte.x00; Byte.x00; Byte.x01; Byte.x02] [])
      as (_ & H1 & _); [reflexivity | discriminate | reflexivity |].
    destruct (H1 eq_refl) as (v & Hv & ->). by injection Hv as <-.
  - destruct (send_command_scalar_or_tuple (b "GETGYRO")
                [Fmt_H; Fmt_H; Fmt_H; Fmt_x] None
                (MkSerial [] (map Some (b "abcdefg"))) (b "abcdefg") [])
      as (_ & _ & H3); [reflexivity | discriminate | reflexivity |].
    rewrite H3; [reflexivity | vm_compute; lia].
Defined.

(** ** Date and time *)

Lemma hex_byte_Ok v : 0 <= v < 128 -> hex_byte v = Ok [byte.of_Z v].
Proof.
  intros Hv. unfold hex_byte, chr.
  replace ((0 <=? v) && (v <? 1114112)) with true
    by (symmetry; apply andb_true_intro; split;
        [apply Z.leb_le | apply Z.ltb_lt]; lia).
  cbn. replace ((0 <=? v) && (v <? 128)) with true
    by (symmetry; apply andb_true_intro; split;
        [apply Z.leb_le | apply Z.ltb_lt]; lia).
  reflexivity.
Qed.

Lemma hex_byte_inv v data :
  hex_byte v = Ok data -> 0 <= v < 128 /\ data = [byte.of_Z v].
Proof.
  unfold hex_byte, chr.
  destruct ((0 <=? v) && (v <? 1114112)); cbn;
    [|by destruct ((-2147483648 <=? v) && (v <? 2147483648))].
  destruct ((0 <=? v) && (v <? 128)) eqn:E; cbn; [|discriminate].
  apply andb_true_iff in E as [Hlo Hhi].
  apply Z.leb_le in Hlo. apply Z.ltb_lt in Hhi.
  intros [= <-]. split; [lia|reflexivity].
Qed.

Lemma hex_byte_Err v : ~ (0 <= v < 128) -> exists e, hex_byte v = Err e.
Proof.
  intros Hv. destruct (hex_byte v) as [data|e] eqn:E; [|by exists e].
  apply hex_byte_inv in E as [Hr _]. contradiction.
Qed.

Lemma byte_unsigned_of_Z_small v :
  0 <= v < 256 -> byte.unsigned (byte.of_Z v) = v.
Proof.
  intros Hv. rewrite byte.unsigned_of_Z. unfold byte.wrap.
  apply Z.mod_small. change (2 ^ 8) with 256. lia.
Qed.

Lemma chr_byte x : chr (byte.unsigned x) = Ok (byte.unsigned x).
Proof.
  pose proof (byte_unsigned_range x) as Hx. unfold chr.
  replace ((0 <=? byte.unsigned x) && (byte.unsigned x <? 1114112)) with true
    by (symmetry; apply andb_true_intro; split;
        [apply Z.leb_le | apply Z.ltb_lt]; lia).
  reflexivity.
Qed.

Lemma mapM_ord_chr data :
  mapM (fun x => c ← chr (byte.unsigned x); Ok (ord c)) data
  = Ok (map byte.unsigned data).
Proof.
  induction data as [|x tl IH]; [reflexivity|].
  cbn [mapM map]. rewrite chr_byte, IH. reflexivity.
Qed.

Lemma parse_datetime_six y m d h mi s rest :
  parse_datetime (y :: m :: d :: h :: mi :: s :: rest)
  = datetime_new (byte.unsigned y + 2000) (byte.unsigned m) (byte.unsigned d)
                 (byte.unsigned h) (byte.unsigned mi) (byte.unsigned s).
Proof.
  unfold parse_datetime. cbn [take]. rewrite mapM_ord_chr. reflexivity.
Qed.

Lemma valid_datetime_bounds dt :
  valid_datetime dt = true ->
  1 <= month dt <= 12 /\ 1 <= day dt <= 31 /\ 0 <= hour dt <= 23
  /\ 0 <= minute dt <= 59 /\ 0 <= second dt <= 59.
Proof.
  unfold valid_datetime. rewrite !andb_true_iff, !Z.leb_le.
  intros [[[[[[[[[[[_ _] ?] ?] ?] Hd] ?] ?] ?] ?] ?] ?].
  assert (days_in_month (year dt) (month dt) <= 31).
  { unfold days_in_month.
    destruct (month dt =? 2); [destruct (is_leap (year dt)); lia|].
    destruct ((month dt =? 4) || (month dt =? 6) || (month dt =? 9)
              || (month dt =? 11)); lia. }
  lia.
Qed.

(** What [set_datetime] does once its six components fit [hex_byte]. *)
Lemma set_datetime_sends dt st r rest :
  0 <= year dt - 2000 < 128 -> 0 <= month dt < 128 -> 0 <= day dt < 128 ->
  0 <= hour dt < 128 -> 0 <= minute dt < 128 -> 0 <= second dt < 128 ->
  read_until_idle (incoming st) = (r, rest) ->
  set_datetime dt st
  = (if decide (r = OK) then Ok (Raw r) else Err (ValueError OK r),
     MkSerial (written st ++ [b "<SETDATETIME" ++ datetime_payload dt ++ b ">>"])
              rest).
Proof.
  intros Hy Hmo Hd Hh Hmi Hs Hread. unfold set_datetime.
  rewrite !hex_byte_Ok by assumption. cbn [mbind result_bind].
  unfold mbind at 1, io_bind, lift.
  rewrite (send_command_expect_OK _ st r rest Hread).
  unfold datetime_payload, b. cbn [map list_byte_of_string app].
  reflexivity.
Qed.

(** C7, as amended: six raw bytes (y, m, d, h, mi, s) that form a calendar
    date decode to the date-time (2000+y, m, d, h, mi, s); for a date-time
    whose year is in 2000..2127, [set_datetime] sends six raw bytes, each
    equal to the component's number (the year as year-2000), and decoding
    them gives the date-time back. *)
Theorem datetime_wire_format :
  (forall y m d h mi s rest,
      let dt := MkDatetime (byte.unsigned y + 2000) (byte.unsigned m)
                  (byte.unsigned d) (byte.unsigned h) (byte.unsigned mi)
                  (byte.unsigned s) in
      valid_datetime dt = true ->
      parse_datetime (y :: m :: d :: h :: mi :: s :: rest) = Ok dt)
  /\ (forall dt st,
        valid_datetime dt = true ->
        2000 <= year dt <= 2127 ->
        written (set_datetime dt st).2
          = written st ++ [b "<SETDATETIME" ++ datetime_payload dt ++ b ">>"]
        /\ map byte.unsigned (datetime_payload dt)
           = [year dt - 2000; month dt; day dt; hour dt; minute dt; second dt]
        /\ parse_datetime (datetime_payload dt) = Ok dt).
Proof.
  split.
  - intros y m d h mi s rest dt Hvalid.
    rewrite parse_datetime_six. unfold datetime_new. fold dt.
    by rewrite Hvalid.
  - intros dt st Hvalid Hyear.
    destruct (valid_datetime_bounds dt Hvalid) as (Hmo & Hd & Hh & Hmi & Hs).
    destruct (read_until_idle (incoming st)) as [r rest] eqn:Hread.
    assert (map byte.unsigned (datetime_payload dt)
            = [year dt - 2000; month dt; day dt; hour dt; minute dt; second dt])
      as Hpayload.
    { unfold datetime_payload. cbn [map].
      rewrite !byte_unsigned_of_Z_small by lia. reflexivity. }
    split; [|split; [exact Hpayload|]].
    + rewrite (set_datetime_sends dt st r rest) by (assumption || lia).
      reflexivity.
    + unfold datetime_payload at 1. cbn [map].
      rewrite parse_datetime_six.
      rewrite !byte_unsigned_of_Z_small by lia.
      unfold datetime_new.
      replace (year dt - 2000 + 2000) with (year dt) by lia.
      destruct dt as [y m d h mi s]. cbn in *. by rewrite Hvalid.
Qed.

Lemma datetime_wire_format_witness :
  parse_datetime (map byte.of_Z [24; 2; 29; 23; 59; 58; 170])
  = Ok (MkDatetime 2024 2 29 23 59 58)
  /\ written (set_datetime (MkDatetime 2024 2 29 23 59 58)
                (MkSerial [] (acks 1))).2
     = [b "<SETDATETIME" ++ map byte.of_Z [24; 2; 29; 23; 59; 58] ++ b ">>"].
Proof.
  destruct datetime_wire_format as [Hparse Hset]. split.
  - apply (Hparse (byte.of_Z 24) (byte.of_Z 2) (byte.of_Z 29) (byte.of_Z 23)
             (byte.of_Z 59) (byte.of_Z 58) [byte.of_Z 170]).
    vm_compute. reflexivity.
  - destruct (Hset (MkDatetime 2024 2 29 23 59 58) (MkSerial [] (acks 1)))
      as (Hw & _ & _); [vm_compute; reflexivity | cbn; lia |].
    exact Hw.
Defined.

(** C7 as stated fails for the year byte 200: it decodes to the year 2200,
    but [set_datetime] on that date-time raises and sends nothing. *)
Lemma set_datetime_2200_raises :
  parse_datetime (map byte.of_Z [200; 1; 1; 0; 0; 0])
  = Ok (MkDatetime 2200 1 1 0 0 0)
  /\ set_datetime (MkDatetime 2200 1 1 0 0 0) (MkSerial [] (acks 1))
     = (Err UnicodeEncodeError, MkSerial [] (acks 1)).
Proof. split; vm_compute; reflexivity. Qed.

(** C10, as amended: [hex_byte v] is the single byte [v] exactly for
    0 <= v <= 127 and fails for every other [v], from 128 on and below 0;
    hence [set_datetime] on a year from 2128 on or before 2000, and
    [set_date_yy] on an offset from 128 on or below 0, raise with nothing
    written; when all six values handed to [hex_byte] are in 0..127 the
    command is sent, so the failing branch of [hex_byte] is not taken. *)
Theorem hex_byte_ascii_only :
  (forall v, 0 <= v <= 127 ->
             hex_byte v = Ok [byte.of_Z v]
             /\ byte.unsigned (byte.of_Z v) = v)
  /\ (forall v data, hex_byte v = Ok data -> 0 <= v <= 127)
  /\ (forall v, 128 <= v \/ v < 0 -> exists e, hex_byte v = Err e)
  /\ (forall dt st, 2128 <= year dt \/ year dt < 2000 ->
                    exists e, set_datetime dt st = (Err e, st))
  /\ (forall y st, 128 <= y \/ y < 0 ->
                   exists e, set_date_yy y st = (Err e, st))
  /\ (forall dt st,
        0 <= year dt - 2000 < 128 -> 0 <= month dt < 128 ->
        0 <= day dt < 128 -> 0 <= hour dt < 128 ->
        0 <= minute dt < 128 -> 0 <= second dt < 128 ->
        written (set_datetime dt st).2
        = written st ++ [b "<SETDATETIME" ++ datetime_payload dt ++ b ">>"]).
Proof.
  repeat apply conj.
  - intros v Hv. split; [apply hex_byte_Ok; lia|].
    apply byte_unsigned_of_Z_small. lia.
  - intros v data Hd. apply hex_byte_inv in Hd as [Hv _]. lia.
  - intros v Hv. apply hex_byte_Err. lia.
  - intros dt st Hy.
    destruct (hex_byte_Err (year dt - 2000)) as [e He]; [lia|].
    exists e. unfold set_datetime. rewrite He. reflexivity.
  - intros y st Hy.
    destruct (hex_byte_Err y) as [e He]; [lia|].
    exists e. unfold set_date_yy. rewrite He. reflexivity.
  - intros dt st Hy Hmo Hd Hh Hmi Hs.
    destruct (read_until_idle (incoming st)) as [r rest] eqn:Hread.
    rewrite (set_datetime_sends dt st r rest) by assumption. reflexivity.
Qed.

Lemma hex_byte_ascii_only_witness :
  hex_byte 127 = Ok [Byte.x7f]
  /\ (exists e, hex_byte 128 = Err e)
  /\ (exists e, hex_byte (-1) = Err e)
  /\ (exists e, set_datetime (MkDatetime 2128 1 1 0 0 0) (MkSerial [] (acks 1))
                = (Err e, MkSerial [] (acks 1)))
  /\ (exists e, set_datetime (MkDatetime 1999 12 31 23 59 59)
                  (MkSerial [] (acks 1))
                = (Err e, MkSerial [] (acks 1)))
  /\ (exists e, set_date_yy 128 (MkSerial [] (acks 1))
                = (Err e, MkSerial [] (acks 1)))
  /\ written (set_datetime (MkDatetime 2127 12 31 23 59 59)
                (MkSerial [] (acks 1))).2
     = [b "<SETDATETIME" ++ map byte.of_Z [127; 12; 31; 23; 59; 59] ++ b ">>"].
Proof.
  destruct hex_byte_ascii_only as (H1 & _ & H3 & H4 & H5 & H6).
  repeat apply conj.
  - destruct (H1 127) as [-> _]; [lia|reflexivity].
  - apply H3. lia.
  - apply H3. lia.
  - apply H4. cbn. lia.
  - apply H4. cbn. lia.
  - apply H5. lia.
  - rewrite H6; [reflexivity | cbn; lia ..].
Defined.

(** C10 as stated fails: 31 December 1999 is a date-time whose six values
    handed to [hex_byte] (the year as year-2000) are all below 128, and
    [set_datetime] raises on it, in [chr], with nothing written. *)
Lemma set_datetime_1999_raises :
  let dt := MkDatetime 1999 12 31 23 59 59 in
  valid_datetime dt = true
  /\ Forall (fun v => v < 128)
       [year dt - 2000; month dt; day dt; hour dt; minute dt; second dt]
  /\ set_datetime dt (MkSerial [] (acks 1))
     = (Err ChrValueError, MkSerial [] (acks 1)).
Proof.
  cbn zeta. split; [reflexivity|]. split; [|reflexivity].
  repeat (apply Forall_cons_2; [cbn; lia|]). apply Forall_nil_2.
Qed.

(** ** The Wi-Fi association status *)

(** C9 fails on the code: [get_wifi_status] hands the status line itself,
    not a list of lines, to [DictReader], which then reads one character
    per line.  On the answer of a joined instrument only the network name
    is parsed; the hardware address, the channel, the signal strength and
    the five other fields are all [None]. *)
Theorem get_wifi_status_loses_fields :
  status_values
    (get_wifi_status (MkSerial [] (map Some wifi_status_response))).1
  = Ok [Some (Csv.CStr (str "Net1"));
        Some Csv.CNone; Some Csv.CNone; Some Csv.CNone; Some Csv.CNone;
        Some Csv.CNone; Some Csv.CNone; Some Csv.CNone; Some Csv.CNone].
Proof. vm_compute. reflexivity. Qed.

(** The same rows fed as a list of lines, the way [list_wifi_networks]
    feeds its reader, give all nine fields. *)
Lemma DictReader_on_the_line :
  status_values
    (Csv.DictReader_next AP_STATUS_FIELDS
       (Csv.reader [map byte.unsigned (drop 7 wifi_status_line)]))
  = Ok [Some (Csv.CStr (str "Net1"));
        Some (Csv.CStr (str "aa:bb:cc:dd:ee:ff"));
        Some (Csv.CStr (str "6")); Some (Csv.CStr (str "-45"));
        Some (Csv.CStr (str "0")); Some (Csv.CStr (str "0"));
        Some (Csv.CStr (str "0")); Some (Csv.CStr (str "0"));
        Some (Csv.CStr (str "0"))].
Proof. vm_compute. reflexivity. Qed.

(** Whatever the instrument answers, a row read from one-character lines
    has at most two fields. *)
Lemma process_line_single self c :
  between_lines self ->
  match Csv.process_line self [c] with
  | Err _ => True
  | Ok self' =>
      (Csv.state self' = Csv.START_RECORD
       /\ (List.length (Csv.fields self') <= 2)%nat)
      \/ (Csv.state self' = Csv.IN_QUOTED_FIELD /\ Csv.fields self' = [])
  end.
Proof.
  intros [->|[Hstate Hfields]].
  - cbn [Csv.process_line]. unfold Csv.parse_process_char at 2.
    cbn [Csv.state Csv.parse_reset].
    destruct (Csv.is_newline c) eqn:Hnl; [left; cbn; split; [reflexivity|lia]|].
    unfold Csv.start_field. rewrite Hnl.
    destruct (c =? Csv.quotechar); [right; by cbn|].
    destruct (c =? Csv.delimiter); [left; cbn; split; [reflexivity|lia]|].
    left; cbn; split; [reflexivity|lia].
  - destruct self as [st fs f]. cbn in Hstate, Hfields. subst st fs.
    cbn [Csv.process_line]. unfold Csv.parse_process_char at 2.
    cbn [Csv.state].
    destruct (c =? Csv.quotechar); [left; cbn; split; [reflexivity|lia]|].
    unfold Csv.parse_add_char. cbn [Csv.field Csv.fields].
    destruct (Csv.field_limit <=? _); [exact I|]. right; by cbn.
Qed.

Lemma rows_from_single chars : forall self,
  between_lines self ->
  Forall (fun r => forall row, r = Ok row -> (List.length row <= 2)%nat)
         (Csv.rows_from self (map (fun c => [c]) chars)).
Proof.
  induction chars as [|c more IH]; intros self Hself.
  - cbn [map Csv.rows_from].
    destruct (_ || _); [|constructor].
    constructor; [|constructor]. intros row [= <-].
    destruct Hself as [->|[_ Hf]]; cbn; [lia|]. rewrite Hf. cbn. lia.
  - cbn [map Csv.rows_from].
    pose proof (process_line_single self c Hself) as Hline.
    destruct (Csv.process_line self [c]) as [self'|e].
    + destruct Hline as [[Hst Hlen]|[Hst Hf]].
      * rewrite Hst, bool_decide_eq_true_2 by reflexivity.
        constructor; [by intros row [= <-]|]. apply IH. by left.
      * rewrite Hst, bool_decide_eq_false_2 by discriminate.
        apply IH. by right.
    + constructor; [discriminate|constructor].
Qed.

Lemma DictReader_next_inv fieldnames rows d :
  Csv.DictReader_next fieldnames rows = Ok d ->
  exists row, Ok row ∈ rows /\ row <> []
              /\ d = Csv.zip_fields fieldnames row ∅.
Proof.
  induction rows as [|r more IH]; [discriminate|].
  destruct r as [[|v vs]|e]; cbn [Csv.DictReader_next].
  - intros H. destruct (IH H) as (row & Hin & Hne & ->).
    exists row. split; [by right|done].
  - intros [= <-]. exists (v :: vs). split; [by left|done].
  - discriminate.
Qed.

Lemma zip_fields_short row key :
  row <> [] -> (List.length row <= 2)%nat ->
  key ∈ drop 2 AP_STATUS_FIELDS ->
  Csv.zip_fields AP_STATUS_FIELDS row ∅ !! Some key = Some Csv.CNone.
Proof.
  intros Hne Hlen Hkey.
  destruct row as [|v1 [|v2 [|v3 vs]]]; [done| | |cbn in Hlen; lia];
    cbn [drop AP_STATUS_FIELDS] in Hkey;
    repeat (apply elem_of_cons in Hkey as [->|Hkey]; [by vm_compute|]);
    by apply elem_of_nil in Hkey.
Qed.

(** Hence the status record never holds a channel, a signal strength or
    any of the five fields after them, for any answer at all. *)
Lemma get_wifi_status_never_parses s d key :
  (get_wifi_status s).1 = Ok d ->
  key ∈ drop 2 AP_STATUS_FIELDS ->
  d !! Some key = Some Csv.CNone.
Proof.
  unfold get_wifi_status. unfold mbind at 1, io_bind.
  destruct (at_command (str "CWJAP?") s) as [[response|e] s'];
    [|discriminate].
  destruct (response !! 1%nat) as [line|]; [|discriminate].
  unfold lift. cbn [fst]. intros Hd Hkey.
  apply DictReader_next_inv in Hd as (row & Hin & Hne & ->).
  apply zip_fields_short; [exact Hne| |exact Hkey].
  pose proof (rows_from_single (drop 7 line) Csv.parse_reset (or_introl eq_refl))
    as Hrows.
  rewrite Forall_forall in Hrows. exact (Hrows _ Hin _ eq_refl).
Qed.

(** * Further properties of the codec *)

Lemma rstrip_app_pad pad data k :
  rstrip pad (data ++ repeat pad k) = rstrip pad data.
Proof.
  induction data as [|x tl IH].
  - induction k as [|k IHk]; [done|]. cbn [app repeat rstrip] in *.
    rewrite IHk. by rewrite decide_True.
  - cbn [app rstrip]. by rewrite IH.
Qed.

Lemma byte_of_Z_zero c : 0 <= c < 128 -> byte.of_Z c = Byte.x00 <-> c = 0.
Proof.
  intros Hc. split; [|by intros ->].
  intros H. apply (f_equal byte.unsigned) in H.
  rewrite byte_unsigned_of_Z_small in H by lia. exact H.
Qed.

Lemma encode_ascii_strip s data :
  encode_ascii s = Ok data ->
  encode_ascii (strip_nul s) = Ok (rstrip Byte.x00 data).
Proof.
  revert data. induction s as [|c tl IH]; intros data; cbn [encode_ascii].
  - by intros [= <-].
  - destruct ((0 <=? c) && (c <? 128)) eqn:Hc; [|discriminate].
    destruct (encode_ascii tl) as [d|] eqn:E; [|discriminate].
    intros [= <-]. specialize (IH d eq_refl).
    apply andb_true_iff in Hc as [Hlo Hhi].
    apply Z.leb_le in Hlo. apply Z.ltb_lt in Hhi.
    cbn [strip_nul rstrip].
    destruct (strip_nul tl) as [|c' tl'] eqn:Es.
    + cbn in IH. injection IH as IH. rewrite <- IH.
      destruct (c =? 0) eqn:E0.
      * apply Z.eqb_eq in E0. subst c. by rewrite decide_True.
      * apply Z.eqb_neq in E0. rewrite decide_False
          by (intros H; apply byte_of_Z_zero in H; lia).
        cbn. replace ((0 <=? c) && (c <? 128)) with true; [done|].
        symmetry. apply andb_true_intro.
        split; [apply Z.leb_le | apply Z.ltb_lt]; lia.
    + cbn [encode_ascii] in IH |- *.
      replace ((0 <=? c) && (c <? 128)) with true
        by (symmetry; apply andb_true_intro;
            split; [apply Z.leb_le | apply Z.ltb_lt]; lia).
      destruct ((0 <=? c') && (c' <? 128)); [|discriminate].
      destruct (encode_ascii tl') as [d'|]; [|discriminate].
      cbn in IH |- *. injection IH as IH. rewrite <- IH. reflexivity.
Qed.

Lemma decode_encode_ascii s data :
  encode_ascii s = Ok data -> decode_ascii data = Ok s.
Proof.
  revert data. induction s as [|c tl IH]; intros data; cbn [encode_ascii].
  - by intros [= <-].
  - destruct ((0 <=? c) && (c <? 128)) eqn:Hc; [|discriminate].
    destruct (encode_ascii tl) as [d|] eqn:E; [|discriminate].
    intros [= <-]. apply andb_true_iff in Hc as [Hlo Hhi].
    apply Z.leb_le in Hlo. apply Z.ltb_lt in Hhi.
    cbn [decode_ascii]. rewrite byte_unsigned_of_Z_small by lia.
    replace (c <? 128) with true by (symmetry; apply Z.ltb_lt; lia).
    by rewrite (IH d).
Qed.

Lemma stream_read_exact data rest n :
  List.length data = n -> stream_read (data ++ rest) n = Ok (data, rest).
Proof. intros <-. apply stream_read_app. Qed.

(** Parsing what one field built. *)
Lemma build_parse_subcon sc obj data rest :
  build_subcon sc obj = Ok data ->
  parse_subcon sc (data ++ rest) = Ok (decoded sc obj, rest).
Proof.
  intros Hb. pose proof (build_subcon_length _ _ _ Hb) as Hlen.
  unfold parse_subcon. rewrite (stream_read_exact _ _ _ Hlen).
  destruct sc; cbn [build_subcon sizeof] in Hb;
    cbn [mbind result_bind decoded].
  1-4: destruct obj as [z| | |]; try discriminate;
       match type of Hb with context [fits ?a ?w] =>
         destruct (fits a w) eqn:Hf; [|discriminate] end;
       injection Hb as <-;
       exact (f_equal (fun v => Ok (VInt v, rest))
                (bytes2integer_integer2bytes z _ Hf)).
  - destruct obj as [|s| |]; try discriminate.
    destruct (encode_ascii s) as [e|] eqn:He; [|discriminate].
    cbn [mbind result_bind] in Hb.
    destruct (List.length e <=? n)%nat; [|discriminate].
    injection Hb as <-. rewrite rstrip_app_pad.
    rewrite (decode_encode_ascii _ _ (encode_ascii_strip _ _ He)). done.
  - destruct obj as [z| |d|]; try discriminate; cbn [mbind result_bind] in Hb.
    + destruct (fits z n); [|discriminate]. cbn [mbind result_bind] in Hb.
      destruct (_ =? n)%nat; [|discriminate]. by injection Hb as <-.
    + destruct (_ =? n)%nat; [|discriminate]. by injection Hb as <-.
  - by destruct obj.
Qed.

Lemma build_parse_struct subcons obj : forall data rest obj0,
  NoDup (names subcons) ->
  build_struct subcons obj = Ok data ->
  exists obj',
    parse_struct subcons (data ++ rest) obj0 = Ok (obj', rest)
    /\ (forall name sc, (name, sc) ∈ subcons ->
          obj' !! name = Some (decoded sc (default VNone (obj !! name))))
    /\ (forall name, name ∉ names subcons -> obj' !! name = obj0 !! name).
Proof.
  induction subcons as [|[n sc] more IH]; intros data rest obj0 Hnd Hb.
  - injection Hb as <-. exists obj0. split; [done|]. split; [|done].
    intros name sc Hin. by apply elem_of_nil in Hin.
  - cbn [build_struct] in Hb. cbn [names fmap list_fmap fst] in Hnd.
    apply NoDup_cons in Hnd as [Hn Hnd].
    destruct (if flagbuildnone sc then _ else _) as [v|] eqn:Hv; [|discriminate].
    cbn [mbind result_bind] in Hb.
    destruct (build_subcon sc v) as [d|] eqn:Hd; [|discriminate].
    cbn [mbind result_bind] in Hb.
    destruct (build_struct more obj) as [t|] eqn:Ht; [|discriminate].
    injection Hb as <-.
    destruct (IH t rest (<[n := decoded sc v]> obj0) Hnd eq_refl)
      as (obj' & Hp & Hfields & Hframe).
    exists obj'. cbn [parse_struct]. rewrite <- app_assoc.
    rewrite (build_parse_subcon _ _ _ _ Hd). cbn [mbind result_bind].
    split; [exact Hp|]. split.
    + intros name sc' Hin. apply elem_of_cons in Hin as [[= -> ->]|Hin].
      * rewrite (Hframe _ Hn), lookup_insert_eq. f_equal.
        destruct (flagbuildnone sc) eqn:Hflag.
        -- injection Hv as <-. reflexivity.
        -- destruct (obj !! n); [|discriminate]. by injection Hv as <-.
      * by apply Hfields.
    + intros name Hname. apply not_elem_of_cons in Hname as [Hne Hname].
      rewrite (Hframe _ Hname). by rewrite lookup_insert_ne.
Qed.

(** X1: Decoding an encoded configuration gives every field back: numbers
    and byte arrays unchanged, texts without their trailing null
    characters, the reserved field as [None]. *)
Theorem decode_encode_fields (obj : gmap string value) (data : bytes) :
  build config_format obj = Ok data ->
  exists obj',
    parse config_format data = Ok obj'
    /\ forall name sc, (name, sc) ∈ config_format ->
         obj' !! name = Some (decoded sc (default VNone (obj !! name))).
Proof.
  intros Hb.
  destruct (build_parse_struct config_format obj data [] ∅
              config_format_NoDup Hb) as (obj' & Hp & Hfields & _).
  exists obj'. rewrite app_nil_r in Hp. unfold parse. rewrite Hp.
  split; [reflexivity|exact Hfields].
Qed.

Lemma config_format_field (i : nat) name sc :
  config_format !! i = Some (name, sc) -> (name, sc) ∈ config_format.
Proof. apply list_elem_of_lookup_2. Qed.

Lemma decode_encode_fields_witness :
  exists data obj',
    build config_format sample_config = Ok data
    /\ parse config_format data = Ok obj'
    /\ obj' !! "SSID"%string = Some (VStr (str "Net" ++ [0; 49]))
    /\ obj' !! "zoom"%string = Some (VInt 1000)
    /\ obj' !! "unused"%string = Some VNone.
Proof.
  assert (exists data, build config_format sample_config = Ok data)
    as [data Hb] by (vm_compute; eauto).
  destruct (decode_encode_fields sample_config data Hb) as (obj' & Hp & Hf).
  exists data, obj'. split; [exact Hb|]. split; [exact Hp|].
  rewrite (Hf _ _ (config_format_field 40 "SSID" (PaddedString 64) eq_refl)).
  rewrite (Hf _ _ (config_format_field 18 "zoom" Int32ub eq_refl)).
  rewrite (Hf _ _ (config_format_field 75 "unused" (Padding 128 Byte.xff) eq_refl)).
  repeat split; vm_compute; reflexivity.
Defined.

(** ** What the encoder reads *)

Lemma build_subcon_flagbuildnone sc v1 v2 :
  flagbuildnone sc = true -> build_subcon sc v1 = build_subcon sc v2.
Proof. by destruct sc. Qed.

Lemma build_struct_agree subcons obj1 obj2 :
  (forall name sc, (name, sc) ∈ subcons -> flagbuildnone sc = false ->
                   obj1 !! name = obj2 !! name) ->
  build_struct subcons obj1 = build_struct subcons obj2.
Proof.
  induction subcons as [|[n sc] more IH]; intros Hagree; [done|].
  cbn [build_struct].
  rewrite IH
    by (intros name sc' Hin Hflag; apply (Hagree name sc'); [by right|done]).
  destruct (flagbuildnone sc) eqn:Hflag.
  - cbn [mbind result_bind].
    by rewrite (build_subcon_flagbuildnone sc _ (default VNone (obj2 !! n))).
  - by rewrite (Hagree n sc) by (by left || done).
Qed.

Lemma unused_flagbuildnone sc :
  ("unused"%string, sc) ∈ config_format -> flagbuildnone sc = true.
Proof.
  intros Hin. apply list_elem_of_In in Hin.
  assert (forallb (fun f => implb (String.eqb f.1 "unused") (flagbuildnone f.2))
            config_format = true) as Hall by (vm_compute; reflexivity).
  rewrite forallb_forall in Hall. specialize (Hall _ Hin).
  cbn [fst snd] in Hall. by rewrite String.eqb_refl in Hall.
Qed.

Lemma field_names_checked (p : string -> bool) name sc :
  forallb (fun f => p f.1) config_format = true ->
  (name, sc) ∈ config_format -> p name = true.
Proof.
  intros Hall Hin. apply list_elem_of_In in Hin.
  rewrite forallb_forall in Hall. exact (Hall _ Hin).
Qed.

(** X2: The encoder reads the fields of the table other than the reserved one
    and nothing else: two containers that agree on them encode alike,
    whatever else they hold. *)
Theorem build_reads_fields_only (obj1 obj2 : gmap string value) :
  (forall name sc, (name, sc) ∈ config_format -> name <> "unused"%string ->
                   obj1 !! name = obj2 !! name) ->
  build config_format obj1 = build config_format obj2.
Proof.
  intros Hagree. unfold build. apply build_struct_agree.
  intros name sc Hin Hflag. apply (Hagree name sc); [exact Hin|].
  intros ->. rewrite (unused_flagbuildnone _ Hin) in Hflag. discriminate.
Qed.

Lemma build_reads_fields_only_witness :
  build config_format
    (<["_io" := VBytes sample_buffer]> (<["unused" := VInt 7]> sample_config))
  = build config_format sample_config.
Proof.
  apply build_reads_fields_only. intros name sc Hin Hne.
  rewrite lookup_insert_ne.
  - by rewrite lookup_insert_ne.
  - intros <-.
    pose proof (field_names_checked (fun n => negb (String.eqb n "_io")) _ _
                  ltac:(vm_compute; reflexivity) Hin) as H.
    discriminate H.
Defined.

(** ** Changing one field *)

Lemma build_struct_app_inv before after obj data :
  build_struct (before ++ after) obj = Ok data ->
  exists head tail,
    build_struct before obj = Ok head /\ build_struct after obj = Ok tail
    /\ data = head ++ tail /\ List.length head = total_size before.
Proof.
  rewrite build_struct_app.
  destruct (build_struct before obj) as [head|] eqn:Hh; [|discriminate].
  destruct (build_struct after obj) as [tail|] eqn:Ht; [|discriminate].
  intros [= <-]. exists head, tail. repeat split.
  by apply build_struct_length in Hh.
Qed.

Lemma build_struct_insert_other subcons obj name v :
  name ∉ names subcons ->
  build_struct subcons (<[name := v]> obj) = build_struct subcons obj.
Proof.
  intros Hname. apply build_struct_ext. intros n Hn.
  rewrite lookup_insert_ne; [done|]. by intros ->.
Qed.

Lemma update_one_field subcons before name sc after obj v data field :
  subcons = before ++ (name, sc) :: after ->
  NoDup (names subcons) ->
  build_struct subcons obj = Ok data ->
  build_subcon sc v = Ok field ->
  build_struct subcons (<[name := v]> obj)
  = Ok (take (total_size before) data ++ field
        ++ drop (total_size before + sizeof sc) data).
Proof.
  intros -> Hnd Hb Hfield.
  unfold names in Hnd. rewrite fmap_app, fmap_cons in Hnd. cbn [fst] in Hnd.
  apply NoDup_app in Hnd as (_ & Hbefore & Hnd).
  apply NoDup_cons in Hnd as [Hafter _].
  assert (name ∉ names before) as Hnb.
  { intros Hin. apply (Hbefore _ Hin). by left. }
  apply build_struct_app_inv in Hb as (head & rest & Hh & Hrest & -> & Hlen).
  change ((name, sc) :: after) with ([(name, sc)] ++ after) in Hrest.
  apply build_struct_app_inv in Hrest as (old & tail & Hold & Ht & -> & Hlen').
  cbn [total_size foldr snd] in Hlen'. rewrite Nat.add_0_r in Hlen'.
  rewrite build_struct_app, (build_struct_insert_other before), Hh
    by exact Hnb.
  cbn [mbind result_bind build_struct].
  rewrite lookup_insert_eq, (build_struct_insert_other after), Ht
    by exact Hafter.
  replace (if flagbuildnone sc then Ok (default VNone (Some v)) else Ok v)
    with (Ok v : result value) by by destruct (flagbuildnone sc).
  cbn [mbind result_bind]. rewrite Hfield. cbn [mbind result_bind].
  rewrite <- Hlen, take_app_length. f_equal. f_equal. f_equal.
  rewrite <- Hlen', <- drop_drop, drop_app_length, drop_app_length. done.
Qed.

(** X3: Encoding a configuration with one field replaced changes the bytes of
    that field and no others. *)
Theorem build_update_one_field (obj : gmap string value) (name : string)
    (sc : subcon) (before after : list (string * subcon)) (v : value)
    (data field : bytes) :
  config_format = before ++ (name, sc) :: after ->
  build config_format obj = Ok data ->
  build_subcon sc v = Ok field ->
  build config_format (<[name := v]> obj)
  = Ok (take (total_size before) data ++ field
        ++ drop (total_size before + sizeof sc) data).
Proof.
  intros Htable Hb Hfield. unfold build in *.
  exact (update_one_field _ _ _ _ _ _ _ _ _ Htable config_format_NoDup Hb Hfield).
Qed.

Lemma build_update_one_field_witness :
  exists data,
    build config_format default_config = Ok data
    /\ build config_format (<["SSID" := VStr (str "Net1")]> default_config)
       = Ok (take 69 data ++ pad_to 64 (b "Net1") ++ drop 133 data).
Proof.
  assert (exists data, build config_format default_config = Ok data)
    as [data Hb] by (vm_compute; eauto).
  exists data. split; [exact Hb|].
  apply (build_update_one_field default_config "SSID" (PaddedString 64)
           (take 40 config_format) (drop 41 config_format)
           (VStr (str "Net1")) data (pad_to 64 (b "Net1")));
    [vm_compute; reflexivity | exact Hb | vm_compute; reflexivity].
Defined.

(** ** Bytes after the record *)

Lemma parse_subcon_more sc data extra :
  (sizeof sc <= List.length data)%nat ->
  parse_subcon sc (data ++ extra)
  = ('(v, rest) ← parse_subcon sc data; Ok (v, rest ++ extra)).
Proof.
  intros Hlen. unfold parse_subcon, stream_read. rewrite length_app.
  replace (sizeof sc <=? List.length data + List.length extra)%nat with true
    by (symmetry; apply Nat.leb_le; lia).
  replace (sizeof sc <=? List.length data)%nat with true
    by (symmetry; apply Nat.leb_le; lia).
  rewrite take_app_le, drop_app_le by lia.
  cbn [mbind result_bind].
  destruct sc; try reflexivity.
  destruct (decode_ascii _); reflexivity.
Qed.

Lemma parse_struct_more subcons : forall data extra obj,
  (total_size subcons <= List.length data)%nat ->
  parse_struct subcons (data ++ extra) obj
  = ('(obj', rest) ← parse_struct subcons data obj; Ok (obj', rest ++ extra)).
Proof.
  induction subcons as [|[n sc] more IH]; intros data extra obj Hlen; [done|].
  cbn [total_size foldr snd] in Hlen. cbn [parse_struct].
  rewrite parse_subcon_more by lia.
  destruct (parse_subcon sc data) as [[v rest]|] eqn:Hp; [|reflexivity].
  cbn [mbind result_bind].
  apply parse_subcon_inv in Hp as (d & -> & Hd).
  rewrite length_app in Hlen. apply IH.
  change (foldr _ 0%nat more) with (total_size more) in Hlen. lia.
Qed.

(** X4: The decoder looks at the first 512 bytes only: what follows them
    never changes the result, and with fewer bytes it always fails. *)
Theorem parse_first_512_only (data : bytes) :
  ((512 <= List.length data)%nat ->
   forall extra, parse config_format (data ++ extra) = parse config_format data)
  /\ ((List.length data < 512)%nat ->
      exists e, parse config_format data = Err e).
Proof.
  split.
  - intros Hlen extra. unfold parse.
    rewrite parse_struct_more by (rewrite config_format_total_size; exact Hlen).
    destruct (parse_struct config_format data ∅) as [[obj rest]|]; reflexivity.
  - intros Hlen. unfold parse.
    destruct (parse_struct config_format data ∅) as [[obj rest]|e] eqn:Hp;
      [|by exists e].
    apply parse_struct_consumes in Hp as [Hle _].
    rewrite config_format_total_size in Hle. lia.
Qed.

Lemma parse_first_512_only_witness :
  parse config_format (sample_buffer ++ [Byte.xaa])
  = parse config_format sample_buffer
  /\ exists e, parse config_format (take 511 sample_buffer) = Err e.
Proof.
  split.
  - apply (proj1 (parse_first_512_only sample_buffer)). vm_compute. lia.
  - apply (proj2 (parse_first_512_only (take 511 sample_buffer))).
    vm_compute. lia.
Defined.

(** ** When encoding succeeds *)

Lemma encode_ascii_Ok_iff s :
  (exists data, encode_ascii s = Ok data) <-> forallb is_ascii_char s = true.
Proof.
  induction s as [|c tl IH]; cbn [encode_ascii forallb].
  - split; [done|]. by exists [].
  - fold (is_ascii_char c). destruct (is_ascii_char c); cbn [andb].
    + rewrite <- IH. split.
      * intros [data H]. destruct (encode_ascii tl) as [d|]; [by exists d|done].
      * intros [d ->]. by eexists.
    + split; [by intros [? ?]|done].
Qed.

Lemma build_subcon_acceptable sc v :
  (exists data, build_subcon sc v = Ok data) <-> acceptable sc v = true.
Proof.
  destruct sc; cbn [build_subcon acceptable sizeof].
  1-4: destruct v as [z| | |]; try (split; [by intros [? ?]|done]);
       match goal with |- context [fits ?a ?w] => destruct (fits a w) end;
       (split; [by intros [? ?] | by eauto]).
  - destruct v as [|s| |]; try (split; [by intros [? ?]|done]).
    rewrite andb_true_iff, <- encode_ascii_Ok_iff.
    destruct (encode_ascii s) as [e|] eqn:He; cbn [mbind result_bind].
    + rewrite <- (encode_ascii_length _ _ He).
      destruct (List.length e <=? n)%nat; split;
        try (by intros [? ?]); try (by intros [_ ?]); eauto.
    + split; [by intros [? ?]|]. by intros [[? ?] _].
  - destruct v as [z| |d|]; try (split; [by intros [? ?]|done]);
      cbn [mbind result_bind].
    + destruct (fits z n) eqn:Hf; cbn [mbind result_bind];
        [|split; [by intros [? ?]|done]].
      rewrite integer2bytes_length, Nat.eqb_refl. split; eauto.
    + destruct (List.length d =? n)%nat; split; eauto;
        try (by intros [? ?]); done.
  - split; eauto.
Qed.

Lemma build_struct_Ok_iff subcons obj :
  (exists data, build_struct subcons obj = Ok data)
  <-> forall name sc, (name, sc) ∈ subcons -> flagbuildnone sc = false ->
        exists v, obj !! name = Some v /\ acceptable sc v = true.
Proof.
  induction subcons as [|[n sc] more IH]; cbn [build_struct].
  - split; [|by eexists]. intros _ name sc Hin. by apply elem_of_nil in Hin.
  - split.
    + intros [data Hb] name sc' Hin Hflag.
      destruct (if flagbuildnone sc then _ else _) as [v|] eqn:Hv;
        [|discriminate]. cbn [mbind result_bind] in Hb.
      destruct (build_subcon sc v) as [d|] eqn:Hd; [|discriminate].
      cbn [mbind result_bind] in Hb.
      destruct (build_struct more obj) as [t|] eqn:Ht; [|discriminate].
      apply elem_of_cons in Hin as [[= -> ->]|Hin].
      * rewrite Hflag in Hv. destruct (obj !! n) as [v'|]; [|discriminate].
        injection Hv as ->. exists v. split; [done|].
        apply build_subcon_acceptable. by exists d.
      * apply (proj1 IH); [by exists t|done..].
    + intros Hall.
      destruct (proj2 IH) as [t Ht].
      { intros name sc' Hin. apply Hall. by right. }
      rewrite Ht.
      destruct (flagbuildnone sc) eqn:Hflag.
      * destruct sc; try discriminate. cbn. by eexists.
      * destruct (Hall n sc) as (v & -> & Hacc); [by left|done|].
        apply build_subcon_acceptable in Hacc as [d Hd].
        cbn [mbind result_bind]. rewrite Hd. by eexists.
Qed.

Lemma reserved_field_only name sc :
  (name, sc) ∈ config_format -> flagbuildnone sc = true ->
  name = "unused"%string.
Proof.
  intros Hin Hflag. apply list_elem_of_In in Hin.
  assert (forallb (fun f => implb (flagbuildnone f.2) (String.eqb f.1 "unused"))
            config_format = true) as Hall by (vm_compute; reflexivity).
  rewrite forallb_forall in Hall. specialize (Hall _ Hin).
  cbn [fst snd] in Hall. rewrite Hflag in Hall. by apply String.eqb_eq.
Qed.

(** X5: Encoding succeeds exactly when every field but the reserved one is
    present and holds a value of its kind: a number that fits the width, an
    ASCII text no longer than the width, a byte array of the exact
    length. *)
Theorem build_succeeds_iff (obj : gmap string value) :
  (exists data, build config_format obj = Ok data)
  <-> forall name sc, (name, sc) ∈ config_format -> name <> "unused"%string ->
        exists v, obj !! name = Some v /\ acceptable sc v = true.
Proof.
  unfold build. rewrite build_struct_Ok_iff. split.
  - intros Hall name sc Hin Hne. apply Hall; [exact Hin|].
    destruct (flagbuildnone sc) eqn:Hflag; [|reflexivity].
    contradict Hne. exact (reserved_field_only _ _ Hin Hflag).
  - intros Hall name sc Hin Hflag. apply Hall; [exact Hin|].
    intros ->. rewrite (unused_flagbuildnone _ Hin) in Hflag. discriminate.
Qed.

Lemma build_succeeds_iff_witness :
  ~ (exists data, build config_format (delete "zoom" default_config) = Ok data).
Proof.
  intros H.
  pose proof (proj1 (build_succeeds_iff (delete "zoom" default_config)) H)
    as Hall.
  destruct (Hall "zoom"%string Int32ub) as (v & Hv & _).
  - exact (config_format_field 18 _ _ eq_refl).
  - discriminate.
  - rewrite lookup_delete_eq in Hv. discriminate.
Defined.

(** * Further properties of the connection *)

Lemma read_until_idle_spec (events : list (option byte)) :
  events = map Some (read_until_idle events).1
           ++ None :: (read_until_idle events).2
  \/ (events = map Some (read_until_idle events).1
      /\ (read_until_idle events).2 = []).
Proof.
  induction events as [|[x|] more IH]; cbn [read_until_idle].
  - by right.
  - destruct (read_until_idle more) as [buffer rest]. cbn [fst snd map app] in *.
    destruct IH as [->|[-> ->]]; [by left|by right].
  - by left.
Qed.

(** X6: [read_all] never raises and writes nothing; it returns exactly the
    bytes that arrive before the first read that times out, and consumes
    them and that read: what arrives later is left in the port for the
    next call.  When no read times out it returns all that is left. *)
Theorem read_all_until_first_timeout (s : Serial) :
  exists buffer rest,
    read_all s = (Ok buffer, MkSerial (written s) rest)
    /\ (incoming s = map Some buffer ++ None :: rest
        \/ (incoming s = map Some buffer /\ rest = [])).
Proof.
  exists (read_until_idle (incoming s)).1, (read_until_idle (incoming s)).2.
  split; [|apply read_until_idle_spec].
  unfold read_all. by destruct (read_until_idle (incoming s)).
Qed.

Lemma read_until_idle_response r rest :
  read_until_idle (map Some r ++ None :: rest) = (r, rest).
Proof.
  induction r as [|x r IH]; [done|]. cbn [map app read_until_idle].
  by rewrite IH.
Qed.

Lemma send_command_state command response_format expected s :
  written (send_command command response_format expected s).2
    = written s ++ [frame command]
  /\ incoming (send_command command response_format expected s).2
     = (read_until_idle (incoming s)).2.
Proof.
  unfold send_command, frame. io_unfold. cbn [written incoming].
  destruct (read_until_idle (incoming s)) as [response rest].
  destruct (truthy expected && _); [done|].
  destruct response_format as [fmt|]; [|done].
  destruct (unpack fmt response) as [[|v [|w items]]|e]; done.
Qed.

(** X7: Whatever its arguments and whatever it returns or raises,
    [send_command] writes exactly one frame, [<] command [>>], and reads
    exactly one response: the bytes up to the first read that times out. *)
Theorem send_command_one_transaction (command : bytes)
    (response_format : option (list code)) (expected : option bytes)
    (s : Serial) :
  (send_command command response_format expected s).2
  = MkSerial (written s ++ [b "<" ++ command ++ b ">>"])
             (read_until_idle (incoming s)).2.
Proof.
  destruct (send_command_state command response_format expected s) as [Hw Hi].
  destruct (send_command _ _ _ s) as [res [w i]]. cbn [snd written incoming] in *.
  by subst.
Qed.

(** X8: [send_command] raises in two situations only: a non-empty expected
    response that differs from what was read (the mismatch error), and,
    when that check passes or is not asked for, a response whose length is
    not the one of the format ([struct.error]).  The expectation is checked
    first, and an empty one is no expectation at all. *)
Theorem send_command_raises_iff (command : bytes)
    (response_format : option (list code)) (expected : option bytes)
    (s : Serial) (e : exn) :
  let response := (read_until_idle (incoming s)).1 in
  (send_command command response_format expected s).1 = Err e
  <-> (exists wanted, expected = Some wanted /\ wanted <> []
                      /\ wanted <> response /\ e = ValueError wanted response)
      \/ ((expected = None \/ expected = Some [] \/ expected = Some response)
          /\ exists fmt, response_format = Some fmt
                         /\ List.length response <> calcsize fmt
                         /\ e = StructError).
Proof.
  cbn zeta. unfold send_command. io_unfold. cbn [written incoming].
  destruct (read_until_idle (incoming s)) as [response rest]. cbn [fst].
  destruct expected as [[|w wanted]|]; cbn [truthy andb].
  - (* b'' *)
    split.
    + intros He. right. split; [by right; left|].
      destruct response_format as [fmt|]; [|discriminate].
      exists fmt. unfold unpack in He.
      destruct (List.length response =? calcsize fmt)%nat eqn:Hlen.
      * by destruct (unpack_from fmt response) as [|v [|w items]].
      * apply Nat.eqb_neq in Hlen. cbn in He. by injection He as <-.
    + intros [(wanted & [= <-] & Hne & _)|[_ (fmt & -> & Hlen & ->)]]; [done|].
      unfold unpack. apply Nat.eqb_neq in Hlen. by rewrite Hlen.
  - destruct (decide (response = w :: wanted)) as [->|Hne].
    + rewrite bool_decide_true by reflexivity. cbn [negb]. split.
      * intros He. right. split; [by right; right|].
        destruct response_format as [fmt|]; [|discriminate].
        exists fmt. unfold unpack in He.
        destruct (List.length (w :: wanted) =? calcsize fmt)%nat eqn:Hlen.
        -- by destruct (unpack_from fmt (w :: wanted)) as [|v [|w' items]].
        -- apply Nat.eqb_neq in Hlen. cbn in He. by injection He as <-.
      * intros [(wanted' & [= <-] & _ & Hne & _)|[_ (fmt & -> & Hlen & ->)]];
          [done|].
        unfold unpack. apply Nat.eqb_neq in Hlen. by rewrite Hlen.
    + rewrite bool_decide_false by congruence. cbn [negb default]. split.
      * intros [= <-]. left. exists (w :: wanted). by repeat split.
      * intros [(wanted' & [= <-] & _ & _ & ->)|[[H|[H|H]] _]]; try done.
        congruence.
  - split.
    + intros He. right. split; [by left|].
      destruct response_format as [fmt|]; [|discriminate].
      exists fmt. unfold unpack in He.
      destruct (List.length response =? calcsize fmt)%nat eqn:Hlen.
      * by destruct (unpack_from fmt response) as [|v [|w items]].
      * apply Nat.eqb_neq in Hlen. cbn in He. by injection He as <-.
    + intros [(wanted & [=] & _)|[_ (fmt & -> & Hlen & ->)]].
      unfold unpack. apply Nat.eqb_neq in Hlen. by rewrite Hlen.
Qed.

Lemma send_command_raises_iff_witness :
  (send_command (b "GETCPM") (Some [Fmt_I]) (Some [])
     (MkSerial [] (map Some (b "12345")))).1 = Err StructError.
Proof.
  apply (proj2 (send_command_raises_iff (b "GETCPM") (Some [Fmt_I]) (Some [])
                  (MkSerial [] (map Some (b "12345"))) StructError)).
  right. split; [by right; left|]. exists [Fmt_I].
  split; [reflexivity|]. split; [|reflexivity]. vm_compute. discriminate.
Defined.

Lemma send_command_returns_bytes command s :
  send_command command None None s
  = (Ok (Raw (read_until_idle (incoming s)).1),
     MkSerial (written s ++ [frame command]) (read_until_idle (incoming s)).2).
Proof.
  unfold send_command, frame. io_unfold. cbn [written incoming].
  by destruct (read_until_idle (incoming s)) as [response rest].
Qed.

(** * Further properties of the instrument's operations *)

Lemma io_bind_run {A B} (m : io A) (k : A -> io B) (s : Serial) :
  (m ≫= k) s
  = match m s with
    | (Ok a, s') => k a s'
    | (Err e, s') => (Err e, s')
    end.
Proof. reflexivity. Qed.

Ltac run_command :=
  rewrite !io_bind_run, !send_command_returns_bytes;
  cbn [response_bytes lift fst snd written incoming].

Lemma decode_ascii_Err data :
  forallb is_ascii data = false -> decode_ascii data = Err UnicodeDecodeError.
Proof.
  induction data as [|x tl IH]; cbn [forallb decode_ascii]; [discriminate|].
  change (is_ascii x) with (byte.unsigned x <? 128).
  destruct (byte.unsigned x <? 128); [|reflexivity].
  cbn [andb]. intros H. by rewrite IH.
Qed.

(** X9: [get_ver] returns the response as text, one character per byte, when
    every byte is below 0x80, and raises otherwise; the command has been
    sent in both cases. *)
Theorem get_ver_ascii (s : Serial) :
  let response := (read_until_idle (incoming s)).1 in
  written (get_ver s).2 = written s ++ [b "<GETVER>>"]
  /\ (forallb is_ascii response = true ->
      (get_ver s).1 = Ok (map byte.unsigned response))
  /\ (forallb is_ascii response = false ->
      (get_ver s).1 = Err UnicodeDecodeError).
Proof.
  cbn zeta. unfold get_ver. run_command.
  split; [reflexivity|]. split.
  - intros Hascii. by rewrite decode_ascii_Ok.
  - intros Hascii. by rewrite decode_ascii_Err.
Qed.

Lemma get_ver_ascii_witness :
  (get_ver (MkSerial [] (map Some (b "GMC-500+Re 2.28")))).1
  = Ok (str "GMC-500+Re 2.28")
  /\ (get_ver (MkSerial [] [Some Byte.x31; Some Byte.xff])).1
     = Err UnicodeDecodeError.
Proof.
  split.
  - apply (proj1 (proj2 (get_ver_ascii
             (MkSerial [] (map Some (b "GMC-500+Re 2.28")))))).
    vm_compute. reflexivity.
  - apply (proj2 (proj2 (get_ver_ascii
             (MkSerial [] [Some Byte.x31; Some Byte.xff])))).
    vm_compute. reflexivity.
Defined.

Lemma unpack_I data :
  unpack [Fmt_I] data
  = if (List.length data =? 4)%nat then Ok [bytes2integer data]
    else Err StructError.
Proof.
  unfold unpack. cbn [calcsize foldr code_size Nat.add].
  destruct (List.length data =? 4)%nat eqn:E; [|reflexivity].
  apply Nat.eqb_eq in E. cbn [unpack_from code_size].
  by rewrite <- E, firstn_all.
Qed.

(** X10: Each of the six counters needs a response of exactly four bytes and
    returns the number they spell, most significant byte first, which is
    below 2^32; a response of any other length, the empty one of a silent
    instrument included, raises [struct.error]. *)
Theorem counters_four_bytes (f : io response_value) (command : bytes)
    (s : Serial) :
  (f, command) ∈ counters ->
  let response := (read_until_idle (incoming s)).1 in
  written (f s).2 = written s ++ [b "<" ++ command ++ b ">>"]
  /\ (List.length response = 4%nat ->
      (f s).1 = Ok (Scalar (bytes2integer response))
      /\ 0 <= bytes2integer response < 2 ^ 32)
  /\ (List.length response <> 4%nat -> (f s).1 = Err StructError).
Proof.
  intros Hf. cbn zeta.
  assert (f = send_command command (Some [Fmt_I]) None) as ->.
  { unfold counters in Hf.
    repeat (apply elem_of_cons in Hf as [[= -> ->]|Hf]; [reflexivity|]).
    by apply elem_of_nil in Hf. }
  split; [exact (proj1 (send_command_state command _ _ s))|].
  destruct (read_until_idle (incoming s)) as [response rest] eqn:Hread.
  rewrite (send_command_format _ _ _ _ _ _ Hread) by discriminate.
  cbn [fst]. rewrite unpack_I. split.
  - intros Hlen. rewrite Hlen. split; [reflexivity|].
    pose proof (bytes2integer_range response) as H. rewrite Hlen in H.
    exact H.
  - intros Hlen. apply Nat.eqb_neq in Hlen. by rewrite Hlen.
Qed.

Lemma counters_four_bytes_witness :
  (get_CPM (MkSerial [] (map Some [Byte.x00; Byte.x00; Byte.x01; Byte.x2c]))).1
  = Ok (Scalar 300)
  /\ (get_CPSH (MkSerial [] [])).1 = Err StructError.
Proof.
  split.
  - apply (proj1 (proj2 (counters_four_bytes get_CPM (b "GETCPM")
             (MkSerial [] (map Some [Byte.x00; Byte.x00; Byte.x01; Byte.x2c]))
             ltac:(apply list_elem_of_here)))).
    reflexivity.
  - apply (proj2 (proj2 (counters_four_bytes get_CPSH (b "GETCPSH")
             (MkSerial [] [])
             ltac:(do 5 apply list_elem_of_further; apply list_elem_of_here)))).
    discriminate.
Defined.

Lemma get_gyro_wrong_length s :
  List.length (read_until_idle (incoming s)).1 <> 7%nat ->
  (get_gyro s).1 = Err StructError.
Proof.
  intros Hlen. unfold get_gyro.
  destruct (read_until_idle (incoming s)) as [response rest] eqn:Hread.
  rewrite (send_command_format _ _ _ _ _ _ Hread) by discriminate.
  cbn [fst] in *. unfold unpack. cbn [calcsize foldr code_size Nat.add].
  apply Nat.eqb_neq in Hlen. by rewrite Hlen.
Qed.

(** X11: [get_gyro] needs exactly seven bytes: three big-endian 16-bit numbers,
    each below 65536, and a last byte that is ignored; a response of any
    other length raises [struct.error]. *)
Theorem get_gyro_seven_bytes (s : Serial) :
  let response := (read_until_idle (incoming s)).1 in
  (forall x1 x2 y1 y2 z1 z2 last,
      response = [x1; x2; y1; y2; z1; z2; last] ->
      (get_gyro s).1
      = Ok (Tuple [byte.unsigned x1 * 256 + byte.unsigned x2;
                   byte.unsigned y1 * 256 + byte.unsigned y2;
                   byte.unsigned z1 * 256 + byte.unsigned z2])
      /\ 0 <= byte.unsigned x1 * 256 + byte.unsigned x2 < 65536
      /\ 0 <= byte.unsigned y1 * 256 + byte.unsigned y2 < 65536
      /\ 0 <= byte.unsigned z1 * 256 + byte.unsigned z2 < 65536)
  /\ (List.length response <> 7%nat -> (get_gyro s).1 = Err StructError).
Proof.
  cbn zeta. split; [|apply get_gyro_wrong_length].
  intros x1 x2 y1 y2 z1 z2 last Hresp. unfold get_gyro.
  destruct (read_until_idle (incoming s)) as [response rest] eqn:Hread.
  cbn [fst] in Hresp. subst response.
  rewrite (send_command_format _ _ _ _ _ _ Hread) by discriminate.
  pose proof (byte_unsigned_range x1). pose proof (byte_unsigned_range x2).
  pose proof (byte_unsigned_range y1). pose proof (byte_unsigned_range y2).
  pose proof (byte_unsigned_range z1). pose proof (byte_unsigned_range z2).
  split; [|lia]. reflexivity.
Qed.

Lemma get_gyro_seven_bytes_witness :
  (get_gyro (MkSerial [] (map Some (b "abcdefg") ++ [None]))).1
  = Ok (Tuple [24930; 25444; 25958])
  /\ (get_gyro (MkSerial [] (map Some (b "abcdef")))).1 = Err StructError.
Proof.
  split.
  - exact (proj1 (proj1 (get_gyro_seven_bytes
                    (MkSerial [] (map Some (b "abcdefg") ++ [None])))
                    _ _ _ _ _ _ _ eq_refl)).
  - apply (proj2 (get_gyro_seven_bytes (MkSerial [] (map Some (b "abcdef"))))).
    vm_compute. discriminate.
Defined.

(** ** The clock *)

Lemma parse_datetime_short data :
  (List.length data < 6)%nat -> parse_datetime data = Err UnpackValueError.
Proof.
  intros Hlen. unfold parse_datetime. rewrite mapM_ord_chr.
  rewrite firstn_all2 by lia. cbn [mbind result_bind].
  destruct data as [|y [|m [|d [|h [|mi [|s rest]]]]]]; try reflexivity.
  cbn in Hlen. lia.
Qed.

(** X12: A response shorter than six bytes, the empty one of a silent
    instrument included, makes [get_datetime] raise the unpacking error:
    no date-time is made up from missing bytes. *)
Theorem get_datetime_short_response (s : Serial) :
  (List.length (read_until_idle (incoming s)).1 < 6)%nat ->
  (get_datetime s).1 = Err UnpackValueError.
Proof.
  intros Hlen. unfold get_datetime. run_command.
  by apply parse_datetime_short.
Qed.

Lemma get_datetime_short_response_witness :
  (get_datetime (MkSerial [] (map Some (b "12345")))).1 = Err UnpackValueError.
Proof.
  apply (get_datetime_short_response (MkSerial [] (map Some (b "12345")))).
  vm_compute. lia.
Defined.

(** X13: What [get_datetime] returns is a calendar date-time with a year in
    2000..2255, and the response began with its six components as raw
    bytes, year first (as year-2000); bytes after the sixth are ignored. *)
Theorem get_datetime_inversion (s : Serial) (dt : datetime) :
  (get_datetime s).1 = Ok dt ->
  valid_datetime dt = true
  /\ 2000 <= year dt <= 2255
  /\ exists extra,
       (read_until_idle (incoming s)).1
       = map byte.of_Z [year dt - 2000; month dt; day dt;
                        hour dt; minute dt; second dt] ++ extra.
Proof.
  unfold get_datetime. run_command.
  destruct (read_until_idle (incoming s)).1
    as [|y [|m [|d [|h [|mi [|sec extra]]]]]] eqn:Hr;
    try (rewrite parse_datetime_short by (cbn; lia); discriminate).
  rewrite parse_datetime_six. unfold datetime_new.
  destruct (valid_datetime _) eqn:Hvalid; [|discriminate].
  intros [= <-]. cbn [year month day hour minute second].
  pose proof (byte_unsigned_range y).
  split; [exact Hvalid|]. split; [lia|]. exists extra. cbn [map app].
  replace (byte.unsigned y + 2000 - 2000) with (byte.unsigned y) by lia.
  by rewrite !byte.of_Z_unsigned.
Qed.

Lemma get_datetime_inversion_witness :
  valid_datetime (MkDatetime 2024 2 29 23 59 58) = true
  /\ 2000 <= 2024 <= 2255.
Proof.
  destruct (get_datetime_inversion
              (MkSerial [] (map Some (map byte.of_Z [24; 2; 29; 23; 59; 58; 170])))
              (MkDatetime 2024 2 29 23 59 58) eq_refl) as (Hv & Hy & _).
  exact (conj Hv Hy).
Defined.

(** ** Writing one byte of the record *)

(** X14: [write_config_byte] sends nothing when the address is outside
    0..65535 or the byte outside 0..255: packing raises first. *)
Theorem write_config_byte_out_of_range (address data_byte : Z) (s : Serial) :
  ~ (0 <= address < 65536 /\ 0 <= data_byte < 256) ->
  write_config_byte address data_byte s = (Err StructError, s).
Proof.
  intros Hrange. unfold write_config_byte. rewrite io_bind_run.
  unfold lift, pack1, fits. cbn [code_size].
  change (256 ^ Z.of_nat 2) with 65536. change (256 ^ Z.of_nat 1) with 256.
  destruct (decide (0 <= address < 65536)) as [Ha|Ha].
  - rewrite (proj2 (andb_true_iff _ _)) by (split; [apply Z.leb_le|apply Z.ltb_lt]; lia).
    rewrite io_bind_run.
    destruct ((0 <=? data_byte) && (data_byte <? 256)) eqn:Hd; [|reflexivity].
    apply andb_true_iff in Hd as [?%Z.leb_le ?%Z.ltb_lt]. lia.
  - destruct ((0 <=? address) && (address <? 65536)) eqn:Hd; [|reflexivity].
    apply andb_true_iff in Hd as [?%Z.leb_le ?%Z.ltb_lt]. lia.
Qed.

Lemma write_config_byte_out_of_range_witness :
  write_config_byte 65536 0 (MkSerial [] []) = (Err StructError, MkSerial [] [])
  /\ write_config_byte 0 256 (MkSerial [] []) = (Err StructError, MkSerial [] []).
Proof.
  split; apply write_config_byte_out_of_range; lia.
Defined.

(** ** Setting the date and the time piece by piece *)

Lemma setters_shape :
  set_date_yy = setter (b "SETDATEYY") /\ set_date_mm = setter (b "SETDATEMM")
  /\ set_date_dd = setter (b "SETDATEDD") /\ set_time_hh = setter (b "SETTIMEHH")
  /\ set_time_mm = setter (b "SETTIMEMM") /\ set_time_ss = setter (b "SETTIMESS").
Proof. repeat split. Qed.

Lemma setter_spec command v s r rest :
  0 <= v < 128 ->
  read_until_idle (incoming s) = (r, rest) ->
  setter command v s
  = (if decide (r = OK) then Ok (Scalar 170) else Err (ValueError OK r),
     MkSerial (written s ++ [frame (command ++ [byte.of_Z v])]) rest).
Proof.
  intros Hv Hread. unfold setter. rewrite io_bind_run.
  unfold lift. rewrite hex_byte_Ok by exact Hv.
  pose proof (send_command_state (command ++ [byte.of_Z v])
                (Some [Fmt_B]) (Some OK) s) as [Hw Hi].
  rewrite Hread in Hi. cbn [snd] in Hi.
  destruct (send_command _ _ _ s) as [res [w i]] eqn:Hsend.
  cbn [snd written incoming] in Hw, Hi. subst w i. f_equal.
  assert (res = (send_command (command ++ [byte.of_Z v])
                   (Some [Fmt_B]) (Some OK) s).1) as -> by (by rewrite Hsend).
  clear Hsend. unfold send_command. io_unfold. cbn [written incoming].
  rewrite Hread. cbn [truthy OK andb default].
  destruct (decide (r = OK)) as [->|Hne].
  - rewrite bool_decide_true by reflexivity. reflexivity.
  - rewrite bool_decide_false by congruence. reflexivity.
Qed.

Lemma setter_refuses command v s :
  ~ (0 <= v < 128) -> exists e, setter command v s = (Err e, s).
Proof.
  intros Hv. destruct (hex_byte_Err v Hv) as [e He]. exists e.
  unfold setter. rewrite io_bind_run. unfold lift. by rewrite He.
Qed.

Lemma run_setters_ok steps : forall s,
  Forall (fun step => 0 <= step.2 < 128) steps ->
  (responses (List.length steps) (incoming s)).1
    = repeat OK (List.length steps) ->
  run_setters steps s
  = (Ok (),
     MkSerial (written s ++ setter_frames steps)
              (responses (List.length steps) (incoming s)).2).
Proof.
  induction steps as [|[command v] more IH]; intros s Hrange Hacks.
  - cbn. rewrite app_nil_r. by destruct s.
  - apply Forall_cons in Hrange as [Hv Hrange]. cbn [fst snd] in Hv.
    cbn [List.length] in *. rewrite responses_S in *.
    destruct (read_until_idle (incoming s)) as [r rest] eqn:Hread.
    cbn [run_setters setter_frames map fst snd].
    rewrite io_bind_run, (setter_spec command v s r rest Hv Hread).
    specialize (IH (MkSerial (written s ++ [frame (command ++ [byte.of_Z v])]) rest)).
    cbn [incoming written] in IH.
    destruct (responses (List.length more) rest) as [rs rest'] eqn:Hrs.
    cbn [fst snd] in *. injection Hacks as -> ->.
    rewrite decide_True by reflexivity.
    rewrite IH by done. by rewrite <- app_assoc.
Qed.

Lemma run_setters_fail steps : forall s k r,
  Forall (fun step => 0 <= step.2 < 128) steps ->
  (k < List.length steps)%nat ->
  (responses (S k) (incoming s)).1 = repeat OK k ++ [r] ->
  r <> OK ->
  run_setters steps s
  = (Err (ValueError OK r),
     MkSerial (written s ++ take (S k) (setter_frames steps))
              (responses (S k) (incoming s)).2).
Proof.
  induction steps as [|[command v] more IH]; intros s k r Hrange Hk Hresp Hr.
  - cbn in Hk. lia.
  - apply Forall_cons in Hrange as [Hv Hrange]. cbn [fst snd] in Hv.
    rewrite responses_S in *.
    destruct (read_until_idle (incoming s)) as [r0 rest] eqn:Hread.
    cbn [run_setters setter_frames map fst snd].
    rewrite io_bind_run, (setter_spec command v s r0 rest Hv Hread).
    destruct k as [|k].
    + cbn in Hresp. injection Hresp as ->.
      rewrite decide_False by done. cbn. reflexivity.
    + specialize (IH (MkSerial (written s ++ [frame (command ++ [byte.of_Z v])]) rest)
                     k r Hrange).
      cbn [incoming written] in IH.
      destruct (responses (S k) rest) as [rs rest'] eqn:Hrs.
      cbn [fst snd repeat app] in *. injection Hresp as -> ->.
      rewrite decide_True by reflexivity.
      rewrite IH by (done || cbn in Hk; lia).
      cbn [take]. by rewrite <- app_assoc.
Qed.

Lemma set_date_steps date : set_date date = run_setters (date_steps date).
Proof. reflexivity. Qed.

Lemma set_time_steps time : set_time time = run_setters (time_steps time).
Proof. reflexivity. Qed.

(** X15: Each of the six setters returns, when it returns, the number 170: the
    acknowledgement byte itself, unpacked as a number.  It returns only for
    a value in 0..127 and an acknowledged command. *)
Theorem setters_return_the_acknowledgement
    (f : Z -> io response_value) (v : Z) (s : Serial) (res : response_value) :
  f ∈ [set_date_yy; set_date_mm; set_date_dd;
       set_time_hh; set_time_mm; set_time_ss] ->
  (f v s).1 = Ok res ->
  res = Scalar 170 /\ 0 <= v < 128 /\ (read_until_idle (incoming s)).1 = OK.
Proof.
  intros Hf Hres.
  assert (exists command, f = setter command) as [command ->].
  { repeat (apply elem_of_cons in Hf as [->|Hf]; [by eexists|]).
    by apply elem_of_nil in Hf. }
  destruct (decide (0 <= v < 128)) as [Hv|Hv].
  - destruct (read_until_idle (incoming s)) as [r rest] eqn:Hread.
    rewrite (setter_spec command v s r rest Hv Hread) in Hres. cbn [fst] in *.
    destruct (decide (r = OK)) as [->|]; [|discriminate].
    by injection Hres as <-.
  - destruct (setter_refuses command v s Hv) as [e He].
    rewrite He in Hres. discriminate.
Qed.

Lemma setters_return_the_acknowledgement_witness :
  (set_time_hh 23 (MkSerial [] (acks 1))).1 = Ok (Scalar 170).
Proof.
  assert ((set_time_hh 23 (MkSerial [] (acks 1))).1 = Ok (Scalar 170)) as H
    by reflexivity.
  destruct (setters_return_the_acknowledgement set_time_hh 23
              (MkSerial [] (acks 1)) (Scalar 170)) as (_ & _ & _);
    [|exact H|exact H].
  do 3 apply list_elem_of_further. apply list_elem_of_here.
Defined.

(** X16: [set_date] sets the year (as year-2000), then the month, then the day,
    each as one raw byte and each after the one before was acknowledged;
    at the first command that is not acknowledged it raises, and the
    commands after that one are not sent. *)
Theorem set_date_year_month_day (date : datetime) (s : Serial) :
  2000 <= year date <= 2127 -> 0 <= month date < 128 -> 0 <= day date < 128 ->
  let frames :=
    [frame (b "SETDATEYY" ++ [byte.of_Z (year date - 2000)]);
     frame (b "SETDATEMM" ++ [byte.of_Z (month date)]);
     frame (b "SETDATEDD" ++ [byte.of_Z (day date)])] in
  ((responses 3 (incoming s)).1 = [OK; OK; OK] ->
   set_date date s
   = (Ok (), MkSerial (written s ++ frames) (responses 3 (incoming s)).2))
  /\ (forall k r,
        (k < 3)%nat ->
        (responses (S k) (incoming s)).1 = repeat OK k ++ [r] ->
        r <> OK ->
        set_date date s
        = (Err (ValueError OK r),
           MkSerial (written s ++ take (S k) frames)
                    (responses (S k) (incoming s)).2)).
Proof.
  intros Hy Hm Hd frames. rewrite set_date_steps.
  assert (Forall (fun step : bytes * Z => 0 <= step.2 < 128) (date_steps date))
    as Hrange.
  { unfold date_steps. repeat apply Forall_cons_2; cbn [snd]; try lia.
    apply Forall_nil_2. }
  split.
  - intros Hacks. exact (run_setters_ok (date_steps date) s Hrange Hacks).
  - intros k r Hk Hresp Hr.
    exact (run_setters_fail (date_steps date) s k r Hrange Hk Hresp Hr).
Qed.

Lemma set_date_year_month_day_witness :
  set_date (MkDatetime 2024 2 29 0 0 0) (MkSerial [] (acks 3))
  = (Ok (), MkSerial [b "<SETDATEYY" ++ [Byte.x18] ++ b ">>";
                      b "<SETDATEMM" ++ [Byte.x02] ++ b ">>";
                      b "<SETDATEDD" ++ [Byte.x1d] ++ b ">>"] [])
  /\ set_date (MkDatetime 2024 2 29 0 0 0)
       (MkSerial [] (acks 1 ++ [Some Byte.x00; None] ++ acks 1))
     = (Err (ValueError OK [Byte.x00]),
        MkSerial [b "<SETDATEYY" ++ [Byte.x18] ++ b ">>";
                  b "<SETDATEMM" ++ [Byte.x02] ++ b ">>"] (acks 1)).
Proof.
  split.
  - apply (proj1 (set_date_year_month_day (MkDatetime 2024 2 29 0 0 0)
                    (MkSerial [] (acks 3))
                    ltac:(cbn; lia) ltac:(cbn; lia) ltac:(cbn; lia))).
    reflexivity.
  - apply (proj2 (set_date_year_month_day (MkDatetime 2024 2 29 0 0 0)
                    (MkSerial [] (acks 1 ++ [Some Byte.x00; None] ++ acks 1))
                    ltac:(cbn; lia) ltac:(cbn; lia) ltac:(cbn; lia))
                 1%nat [Byte.x00]);
      [lia | reflexivity | discriminate].
Defined.

(** X17: A year outside 2000..2127 makes [set_date] raise before anything is
    written: the month and the day are not set either. *)
Theorem set_date_year_out_of_range (date : datetime) (s : Serial) :
  ~ (2000 <= year date <= 2127) ->
  exists e, set_date date s = (Err e, s).
Proof.
  intros Hy.
  destruct (setter_refuses (b "SETDATEYY") (year date - 2000) s) as [e He];
    [lia|].
  exists e. rewrite set_date_steps. unfold date_steps.
  cbn [run_setters]. by rewrite io_bind_run, He.
Qed.

Lemma set_date_year_out_of_range_witness :
  exists e, set_date (MkDatetime 2128 1 1 0 0 0) (MkSerial [] (acks 3))
            = (Err e, MkSerial [] (acks 3)).
Proof.
  apply (set_date_year_out_of_range (MkDatetime 2128 1 1 0 0 0)).
  cbn. lia.
Defined.

(** X18: [set_time] sets the seconds first, then the minutes, then the hours,
    and stops at the first command that is not acknowledged. *)
Theorem set_time_second_minute_hour (time : datetime) (s : Serial) :
  0 <= hour time < 128 -> 0 <= minute time < 128 -> 0 <= second time < 128 ->
  let frames :=
    [frame (b "SETTIMESS" ++ [byte.of_Z (second time)]);
     frame (b "SETTIMEMM" ++ [byte.of_Z (minute time)]);
     frame (b "SETTIMEHH" ++ [byte.of_Z (hour time)])] in
  ((responses 3 (incoming s)).1 = [OK; OK; OK] ->
   set_time time s
   = (Ok (), MkSerial (written s ++ frames) (responses 3 (incoming s)).2))
  /\ (forall k r,
        (k < 3)%nat ->
        (responses (S k) (incoming s)).1 = repeat OK k ++ [r] ->
        r <> OK ->
        set_time time s
        = (Err (ValueError OK r),
           MkSerial (written s ++ take (S k) frames)
                    (responses (S k) (incoming s)).2)).
Proof.
  intros Hh Hm Hs frames. rewrite set_time_steps.
  assert (Forall (fun step : bytes * Z => 0 <= step.2 < 128) (time_steps time))
    as Hrange.
  { unfold time_steps. repeat apply Forall_cons_2; cbn [snd]; try lia.
    apply Forall_nil_2. }
  split.
  - intros Hacks. exact (run_setters_ok (time_steps time) s Hrange Hacks).
  - intros k r Hk Hresp Hr.
    exact (run_setters_fail (time_steps time) s k r Hrange Hk Hresp Hr).
Qed.

Lemma set_time_second_minute_hour_witness :
  set_time (MkDatetime 2024 2 29 23 59 58) (MkSerial [] (acks 3))
  = (Ok (), MkSerial [b "<SETTIMESS" ++ [Byte.x3a] ++ b ">>";
                      b "<SETTIMEMM" ++ [Byte.x3b] ++ b ">>";
                      b "<SETTIMEHH" ++ [Byte.x17] ++ b ">>"] []).
Proof.
  apply (proj1 (set_time_second_minute_hour (MkDatetime 2024 2 29 23 59 58)
                  (MkSerial [] (acks 3))
                  ltac:(cbn; lia) ltac:(cbn; lia) ltac:(cbn; lia))).
  reflexivity.
Defined.

(** ** The network name *)

Lemma encode_ascii_Err s :
  forallb is_ascii_char s = false -> encode_ascii s = Err UnicodeEncodeError.
Proof.
  induction s as [|c tl IH]; cbn [forallb encode_ascii]; [discriminate|].
  fold (is_ascii_char c). destruct (is_ascii_char c); [|reflexivity].
  cbn [andb]. intros H. by rewrite IH.
Qed.

Lemma encode_ascii_inv s data :
  encode_ascii s = Ok data -> map byte.unsigned data = s.
Proof.
  revert data. induction s as [|c tl IH]; intros data; cbn [encode_ascii].
  - by intros [= <-].
  - destruct ((0 <=? c) && (c <? 128)) eqn:Hc; [|discriminate].
    destruct (encode_ascii tl) as [d|]; [|discriminate].
    cbn. intros [= <-]. cbn [map]. rewrite (IH d eq_refl).
    apply andb_true_iff in Hc as [?%Z.leb_le ?%Z.ltb_lt].
    by rewrite byte_unsigned_of_Z_small by lia.
Qed.

(** X19: [set_SSID] and [set_wifi_password] send the text as it is, one byte
    per character and of any length, when every character is ASCII, and
    then want the acknowledgement; a text with another character raises
    before anything is written. *)
Theorem text_setters_ascii_only (f : list Z -> io unit) (command : bytes)
    (text : list Z) (s : Serial) :
  (f, command) ∈ text_setters ->
  (forallb is_ascii_char text = true ->
   exists data,
     map byte.unsigned data = text
     /\ f text s
        = (if decide ((read_until_idle (incoming s)).1 = [Byte.xaa]) then Ok ()
           else Err (ValueError [Byte.xaa] (read_until_idle (incoming s)).1),
           MkSerial (written s ++ [b "<" ++ command ++ data ++ b ">>"])
                    (read_until_idle (incoming s)).2))
  /\ (forallb is_ascii_char text = false ->
      f text s = (Err UnicodeEncodeError, s)).
Proof.
  intros Hf.
  assert (f = fun text => encoded ← lift (encode_ascii text);
                          _ ← send_command (command ++ encoded) None (Some OK);
                          mret ()) as ->.
  { unfold text_setters in Hf.
    repeat (apply elem_of_cons in Hf as [[= -> ->]|Hf]; [reflexivity|]).
    by apply elem_of_nil in Hf. }
  split.
  - intros Hascii.
    destruct (proj2 (encode_ascii_Ok_iff text) Hascii) as [data Hdata].
    exists data. split; [exact (encode_ascii_inv _ _ Hdata)|].
    rewrite io_bind_run. unfold lift. rewrite Hdata.
    rewrite io_bind_run.
    destruct (read_until_idle (incoming s)) as [r rest] eqn:Hread.
    rewrite (send_command_expect_OK _ s r rest Hread).
    cbn [fst snd]. change OK with [Byte.xaa]. rewrite <- app_assoc.
    by destruct (decide (r = [Byte.xaa])).
  - intros Hascii. rewrite io_bind_run. unfold lift.
    by rewrite encode_ascii_Err.
Qed.

Lemma text_setters_ascii_only_witness :
  set_SSID (str "Caf" ++ [233]) (MkSerial [] (acks 1))
  = (Err UnicodeEncodeError, MkSerial [] (acks 1))
  /\ exists data,
       map byte.unsigned data = str "hunter2"
       /\ set_wifi_password (str "hunter2") (MkSerial [] (acks 1))
          = (Ok (), MkSerial [b "<SETWIFIPW" ++ data ++ b ">>"] []).
Proof.
  split.
  - apply (proj2 (text_setters_ascii_only set_SSID (b "SETSSID")
                    (str "Caf" ++ [233]) (MkSerial [] (acks 1))
                    ltac:(apply list_elem_of_here))).
    reflexivity.
  - apply (proj1 (text_setters_ascii_only set_wifi_password (b "SETWIFIPW")
                    (str "hunter2") (MkSerial [] (acks 1))
                    ltac:(apply list_elem_of_further; apply list_elem_of_here))).
    reflexivity.
Defined.

(** ** Reading the configuration and writing it back *)

Lemma well_formed_parse_build data :
  well_formed data = true ->
  exists obj, parse config_format data = Ok obj
              /\ build config_format obj = Ok data.
Proof.
  unfold well_formed. rewrite andb_true_iff, Nat.eqb_eq. intros [Hlen Hok].
  pose proof (parse_build_struct config_format data ∅ config_format_NoDup) as H.
  rewrite config_format_total_size in H.
  destruct H as (obj & Hp & Hb); [lia|exact Hok|].
  exists obj. unfold parse, build. rewrite Hp, Hb. split; [reflexivity|].
  rewrite <- Hlen, firstn_all. reflexivity.
Qed.

(** X20: Reading the configuration and writing it back unchanged re-sends the
    record the instrument returned, byte for byte: after the [GETCFG]
    command, one patch command per address 0..511 carrying the byte that
    was read there. *)
Theorem get_config_then_set_config (s : Serial) (data : bytes)
    (rest : list (option byte)) :
  read_until_idle (incoming s) = (data, rest) ->
  well_formed data = true ->
  (responses 512 rest).1 = repeat OK 512 ->
  (config ← get_config; set_config config) s
  = (Ok (),
     MkSerial (written s ++ frame (b "GETCFG")
                 :: imap (fun i x => WCFG (Z.of_nat i) x) data)
              (responses 512 rest).2).
Proof.
  intros Hread Hwf Hacks.
  destruct (well_formed_parse_build data Hwf) as (obj & Hparse & Hbuild).
  assert (List.length data = 512%nat) as Hlen
    by exact (build_config_length _ _ Hbuild).
  rewrite io_bind_run. unfold get_config. run_command.
  rewrite Hread. cbn [fst snd]. rewrite Hparse.
  unfold set_config. rewrite io_bind_run. unfold lift. rewrite Hbuild.
  rewrite <- config_commands_0.
  rewrite write_config_bytes_ok; cbn [written incoming]; rewrite ?Hlen;
    [|lia|lia|exact Hacks].
  by rewrite <- app_assoc.
Qed.

Lemma get_config_then_set_config_witness :
  written ((config ← get_config; set_config config)
             (MkSerial [] (map Some sample_buffer ++ None :: acks 512))).2
  = frame (b "GETCFG") :: imap (fun i x => WCFG (Z.of_nat i) x) sample_buffer.
Proof.
  rewrite (get_config_then_set_config
             (MkSerial [] (map Some sample_buffer ++ None :: acks 512))
             sample_buffer (acks 512)).
  - reflexivity.
  - exact (read_until_idle_response sample_buffer (acks 512)).
  - vm_compute. reflexivity.
  - vm_compute. reflexivity.
Defined.

(** ** Commands that want the acknowledgement, and commands that do not *)

(** X21: Each of the nine operations that expect the acknowledgement sends its
    one command and returns only when the response is exactly the byte
    0xAA; a silent instrument, another byte or bytes after the 0xAA all
    raise the mismatch error, which carries what was read. *)
Theorem acknowledged_commands (f : io unit) (command : bytes) (s : Serial)
    (r : bytes) (rest : list (option byte)) :
  (f, command) ∈ acknowledged ->
  read_until_idle (incoming s) = (r, rest) ->
  f s = (if decide (r = [Byte.xaa]) then Ok () else Err (ValueError [Byte.xaa] r),
         MkSerial (written s ++ [b "<" ++ command ++ b ">>"]) rest).
Proof.
  intros Hf Hread.
  assert (f = (_ ← send_command command None (Some OK); mret ())) as ->.
  { unfold acknowledged in Hf.
    repeat (apply elem_of_cons in Hf as [[= -> ->]|Hf]; [reflexivity|]).
    by apply elem_of_nil in Hf. }
  rewrite io_bind_run, (send_command_expect_OK _ s r rest Hread).
  change OK with [Byte.xaa]. by destruct (decide (r = [Byte.xaa])).
Qed.

Lemma acknowledged_commands_witness :
  factory_reset (MkSerial [] [Some Byte.xaa; Some Byte.xaa; None])
  = (Err (ValueError [Byte.xaa] [Byte.xaa; Byte.xaa]),
     MkSerial [b "<FACTORYRESET>>"] [])
  /\ wifi_off (MkSerial [] [])
     = (Err (ValueError [Byte.xaa] []), MkSerial [b "<WiFiOFF>>"] []).
Proof.
  split.
  - apply (acknowledged_commands factory_reset (b "FACTORYRESET")
             (MkSerial [] [Some Byte.xaa; Some Byte.xaa; None])
             [Byte.xaa; Byte.xaa] []); [|reflexivity].
    do 2 apply list_elem_of_further. apply list_elem_of_here.
  - apply (acknowledged_commands wifi_off (b "WiFiOFF") (MkSerial [] [])
             [] []); [|reflexivity].
    do 8 apply list_elem_of_further. apply list_elem_of_here.
Defined.

(** X22: [power_on], [power_off], [reboot] and [get_temperature] never raise:
    they return the bytes that came, which for a silent instrument is the
    empty response, so a command that was not heard is not noticed. *)
Theorem unchecked_commands_never_raise (f : io response_value)
    (command : bytes) (s : Serial) :
  (f, command) ∈ unchecked ->
  f s = (Ok (Raw (read_until_idle (incoming s)).1),
         MkSerial (written s ++ [b "<" ++ command ++ b ">>"])
                  (read_until_idle (incoming s)).2).
Proof.
  intros Hf.
  assert (f = send_command command None None) as ->.
  { unfold unchecked in Hf.
    repeat (apply elem_of_cons in Hf as [[= -> ->]|Hf]; [reflexivity|]).
    by apply elem_of_nil in Hf. }
  apply send_command_returns_bytes.
Qed.

Lemma unchecked_commands_never_raise_witness :
  reboot (MkSerial [] []) = (Ok (Raw []), MkSerial [b "<REBOOT>>"] []).
Proof.
  apply (unchecked_commands_never_raise reboot (b "REBOOT") (MkSerial [] [])).
  do 2 apply list_elem_of_further. apply list_elem_of_here.
Defined.

(** ** The serial number *)

Lemma hex_digit_inj d e :
  0 <= d < 16 -> 0 <= e < 16 -> hex_digit d = hex_digit e -> d = e.
Proof.
  unfold hex_digit. intros Hd He.
  destruct (d <? 10) eqn:E1; destruct (e <? 10) eqn:E2; lia.
Qed.

Lemma hex_digit_range d :
  0 <= d < 16 -> 48 <= hex_digit d <= 57 \/ 97 <= hex_digit d <= 102.
Proof. unfold hex_digit. intros Hd. destruct (d <? 10) eqn:E; lia. Qed.

Lemma hex_inj data : forall data', hex data = hex data' -> data = data'.
Proof.
  induction data as [|x tl IH]; intros [|y tl']; cbn; try done.
  intros [= H1 H2 H3].
  pose proof (byte_unsigned_range x) as Hx.
  pose proof (byte_unsigned_range y) as Hy.
  apply hex_digit_inj in H1;
    [|split; [apply Z.div_pos; lia|apply Z.div_lt_upper_bound; lia]..].
  apply hex_digit_inj in H2; [|apply Z.mod_pos_bound; lia..].
  f_equal; [|by apply IH].
  apply byte.unsigned_inj.
  rewrite (Z.div_mod (byte.unsigned x) 16), (Z.div_mod (byte.unsigned y) 16) by lia.
  by rewrite H1, H2.
Qed.

Lemma hex_length data : List.length (hex data) = (2 * List.length data)%nat.
Proof.
  induction data as [|x tl IH]; [done|].
  change (hex (x :: tl)) with (hex_digit (byte.unsigned x / 16)
                               :: hex_digit (byte.unsigned x mod 16) :: hex tl).
  cbn [List.length]. rewrite IH. lia.
Qed.

Lemma hex_chars data :
  Forall (fun c => 48 <= c <= 57 \/ 97 <= c <= 102) (hex data).
Proof.
  induction data as [|x tl IH]; [by apply Forall_nil_2|].
  pose proof (byte_unsigned_range x) as Hx.
  change (hex (x :: tl)) with (hex_digit (byte.unsigned x / 16)
                               :: hex_digit (byte.unsigned x mod 16) :: hex tl).
  apply Forall_cons_2; [|apply Forall_cons_2; [|exact IH]].
  - apply hex_digit_range.
    split; [apply Z.div_pos; lia|apply Z.div_lt_upper_bound; lia].
  - apply hex_digit_range. apply Z.mod_pos_bound. lia.
Qed.

(** X23: [get_serial] never raises; it returns two characters per byte of the
    response, each a digit or a letter a..f, and two responses that differ
    give two texts that differ. *)
Theorem get_serial_hex (s : Serial) :
  exists text,
    (get_serial s).1 = Ok text
    /\ List.length text = (2 * List.length (read_until_idle (incoming s)).1)%nat
    /\ Forall (fun c => 48 <= c <= 57 \/ 97 <= c <= 102) text
    /\ forall s', (get_serial s').1 = Ok text ->
         (read_until_idle (incoming s')).1 = (read_until_idle (incoming s)).1.
Proof.
  exists (hex (read_until_idle (incoming s)).1).
  split; [unfold get_serial; by run_command|].
  split; [apply hex_length|]. split; [apply hex_chars|].
  intros s'. unfold get_serial. run_command. intros [= H].
  by apply hex_inj.
Qed.

Lemma get_serial_hex_witness :
  exists text,
    (get_serial (MkSerial [] (map Some [Byte.xf4; Byte.x88; Byte.x0a]))).1
    = Ok text
    /\ List.length text = 6%nat.
Proof.
  destruct (get_serial_hex (MkSerial [] (map Some [Byte.xf4; Byte.x88; Byte.x0a])))
    as (text & Htext & Hlen & _).
  exists text. split; [exact Htext|exact Hlen].
Defined.

(** ** Text commands *)

Lemma at_command_spec command s :
  at_command command s
  = match encode_ascii command with
    | Err e => (Err e, s)
    | Ok encoded =>
        (text ← decode_ascii (read_until_idle (incoming s)).1;
         Ok (split_crlf text),
         MkSerial (written s ++ [b "<AT+" ++ encoded ++ b ">>"])
                  (read_until_idle (incoming s)).2)
    end.
Proof.
  unfold at_command. rewrite io_bind_run. unfold lift at 1.
  destruct (encode_ascii command) as [encoded|e]; [|reflexivity].
  rewrite io_bind_run. unfold write at 1. rewrite io_bind_run.
  unfold read_all. cbn [incoming written].
  destruct (read_until_idle (incoming s)) as [r rest]. cbn [fst snd].
  rewrite io_bind_run. unfold lift.
  by destruct (decode_ascii r).
Qed.

Lemma split_crlf_step c c' more' :
  split_crlf (c :: c' :: more')
  = if (c =? 13) && (c' =? 10) then [] :: split_crlf more'
    else push_char c (split_crlf (c' :: more')).
Proof. reflexivity. Qed.

Lemma split_crlf_cons s : exists line more, split_crlf s = line :: more.
Proof.
  induction s as [|c [|c' more'] IH]; [by eexists _, _..|].
  rewrite split_crlf_step.
  destruct ((c =? 13) && (c' =? 10)); [by eauto|].
  destruct IH as (line & more & ->). cbn [push_char]. by eauto.
Qed.

Lemma join_push_char sep c line more :
  join sep (push_char c (line :: more)) = c :: join sep (line :: more).
Proof. cbn [push_char join]. by destruct more. Qed.

Lemma join_split_crlf_upto n : forall s,
  (List.length s <= n)%nat -> join [13; 10] (split_crlf s) = s.
Proof.
  induction n as [|n IH]; intros [|c [|c' more']] Hlen; try done;
    cbn [List.length] in Hlen; try lia.
  rewrite split_crlf_step.
  destruct ((c =? 13) && (c' =? 10)) eqn:Hc.
  - apply andb_true_iff in Hc as [->%Z.eqb_eq ->%Z.eqb_eq].
    destruct (split_crlf_cons more') as (line & more & Hsplit).
    pose proof (IH more' ltac:(lia)) as Hjoin. rewrite Hsplit in *.
    change (join [13; 10] ([] :: line :: more))
      with ([13; 10] ++ join [13; 10] (line :: more)).
    by rewrite Hjoin.
  - destruct (split_crlf_cons (c' :: more')) as (line & more & Hsplit).
    pose proof (IH (c' :: more') ltac:(cbn; lia)) as Hjoin.
    rewrite Hsplit in *. by rewrite join_push_char, Hjoin.
Qed.

(** X24: When [at_command] returns, it returns at least one line, and the lines
    joined by CR LF are the response, character for byte: nothing of the
    response is dropped and nothing is added. *)
Theorem at_command_lines (command : list Z) (s : Serial)
    (lines : list (list Z)) :
  (at_command command s).1 = Ok lines ->
  lines <> []
  /\ join [13; 10] lines
     = map byte.unsigned (read_until_idle (incoming s)).1.
Proof.
  rewrite at_command_spec.
  destruct (encode_ascii command) as [encoded|e]; [|discriminate].
  cbn [fst].
  destruct (decode_ascii (read_until_idle (incoming s)).1) as [text|e] eqn:Ht;
    [|discriminate].
  intros [= <-]. apply decode_ascii_inv in Ht as [_ <-]. split.
  - destruct (split_crlf_cons text) as (line & more & ->). discriminate.
  - by apply (join_split_crlf_upto (List.length text)).
Qed.

Lemma at_command_lines_witness :
  join [13; 10] [str "AT+CWQAP"; str ""; str "OK"; str ""]
  = map byte.unsigned (b "AT+CWQAP" ++ CRLF ++ CRLF ++ b "OK" ++ CRLF).
Proof.
  exact (proj2 (at_command_lines (str "CWQAP")
                  (MkSerial [] (map Some (b "AT+CWQAP" ++ CRLF ++ CRLF
                                          ++ b "OK" ++ CRLF)))
                  [str "AT+CWQAP"; str ""; str "OK"; str ""] eq_refl)).
Defined.

(** X25: A response with a byte above 0x7F makes [at_command] raise after the
    command was written and the response read: the response is lost.  A
    command with a character that is not ASCII raises before anything is
    written. *)
Theorem at_command_not_ascii (command : list Z) (s : Serial) :
  (forallb is_ascii_char command = false ->
   at_command command s = (Err UnicodeEncodeError, s))
  /\ (forallb is_ascii_char command = true ->
      forallb is_ascii (read_until_idle (incoming s)).1 = false ->
      exists encoded,
        map byte.unsigned encoded = command
        /\ at_command command s
           = (Err UnicodeDecodeError,
              MkSerial (written s ++ [b "<AT+" ++ encoded ++ b ">>"])
                       (read_until_idle (incoming s)).2)).
Proof.
  rewrite at_command_spec. split.
  - intros Hc. by rewrite encode_ascii_Err.
  - intros Hc Hr.
    destruct (proj2 (encode_ascii_Ok_iff command) Hc) as [encoded He].
    exists encoded. split; [exact (encode_ascii_inv _ _ He)|].
    by rewrite He, decode_ascii_Err.
Qed.

Lemma at_command_not_ascii_witness :
  at_command [233] (MkSerial [] (acks 1))
  = (Err UnicodeEncodeError, MkSerial [] (acks 1))
  /\ exists encoded,
       map byte.unsigned encoded = str "CWQAP"
       /\ at_command (str "CWQAP") (MkSerial [] (acks 1))
          = (Err UnicodeDecodeError,
             MkSerial ([] ++ [b "<AT+" ++ encoded ++ b ">>"])
                      (read_until_idle (acks 1)).2).
Proof.
  split.
  - apply (proj1 (at_command_not_ascii [233] (MkSerial [] (acks 1)))).
    reflexivity.
  - apply (proj2 (at_command_not_ascii (str "CWQAP") (MkSerial [] (acks 1))));
      reflexivity.
Defined.

(** ** Splitting at a separator *)

Lemma split_from_cons sep : forall s skip,
  exists piece more, split_from sep skip s = piece :: more.
Proof.
  induction s as [|c s IH]; intros skip; cbn [split_from]; [by eauto|].
  destruct skip as [|k]; [|apply IH].
  destruct (starts_with sep (c :: s)); [by eauto|].
  destruct (IH 0%nat) as (piece & more & ->). cbn. by eauto.
Qed.

Lemma starts_with_spec sep : forall s,
  starts_with sep s = true -> exists after, s = sep ++ after.
Proof.
  induction sep as [|a sep IH]; intros s; [by exists s|].
  destruct s as [|c s]; cbn [starts_with]; [discriminate|].
  rewrite andb_true_iff. intros [->%Z.eqb_eq Hs].
  destruct (IH s Hs) as [after ->]. by exists after.
Qed.

Lemma starts_with_app sep after : starts_with sep (sep ++ after) = true.
Proof.
  induction sep as [|a sep IH]; [done|]. cbn [app starts_with].
  by rewrite Z.eqb_refl, IH.
Qed.

(** A second piece exists only when the separator occurs. *)
Lemma split_from_second sep : forall s skip piece,
  split_from sep skip s !! 1%nat = Some piece -> contains sep s.
Proof.
  induction s as [|c s IH]; intros skip piece; cbn [split_from]; [done|].
  destruct skip as [|k].
  - destruct (starts_with sep (c :: s)) eqn:Hs.
    + intros _. destruct (starts_with_spec _ _ Hs) as [after ->].
      by exists [], after.
    + destruct (split_from_cons sep s 0) as (p & more & Hsplit).
      rewrite Hsplit. cbn [push_char]. intros Hsecond.
      destruct (IH 0%nat piece) as (before & after & ->);
        [by rewrite Hsplit|].
      by exists (c :: before), after.
  - intros Hsecond. destruct (IH k piece Hsecond) as (before & after & ->).
    by exists (c :: before), after.
Qed.

Lemma split_from_absent a sep : forall s,
  a ∉ s -> split_from (a :: sep) 0 s = [s].
Proof.
  induction s as [|c s IH]; intros Hs; [done|].
  apply not_elem_of_cons in Hs as [Hc Hs]. cbn [split_from starts_with].
  rewrite (proj2 (Z.eqb_neq a c)) by done. cbn [andb].
  by rewrite IH.
Qed.

Lemma split_from_skip sep : forall passed after,
  split_from sep (List.length passed) (passed ++ after) = split_from sep 0 after.
Proof.
  induction passed as [|c passed IH]; intros after; [done|].
  cbn [List.length app split_from]. apply IH.
Qed.

(** The separator found once: two pieces. *)
Lemma split_at_first a sep : forall before after,
  a ∉ before -> a ∉ after ->
  split (a :: sep) (before ++ (a :: sep) ++ after) = [before; after].
Proof.
  unfold split. induction before as [|c before IH]; intros after Hb Ha.
  - cbn [app split_from].
    change (a :: sep ++ after) with ((a :: sep) ++ after).
    rewrite starts_with_app.
    replace (List.length (a :: sep) - 1)%nat with (List.length sep)
      by (cbn [List.length]; lia).
    by rewrite split_from_skip, split_from_absent.
  - apply not_elem_of_cons in Hb as [Hc Hb].
    change ((c :: before) ++ (a :: sep) ++ after)
      with (c :: (before ++ (a :: sep) ++ after)).
    cbn [split_from starts_with].
    rewrite (proj2 (Z.eqb_neq a c)) by done. cbn [andb].
    by rewrite IH.
Qed.

(** ** The hardware address *)

Lemma lstrip_not_space c s : isspace c = false -> lstrip (c :: s) = c :: s.
Proof. intros H. cbn [lstrip]. by rewrite H. Qed.

Lemma strip_quoted m : strip ([34] ++ m ++ [34]) = [34] ++ m ++ [34].
Proof.
  unfold strip. cbn [app]. rewrite lstrip_not_space by reflexivity.
  change (34 :: m ++ [34]) with ([34] ++ m ++ [34]).
  rewrite !rev_app_distr. cbn [rev app].
  rewrite lstrip_not_space by reflexivity.
  change (34 :: rev m ++ [34]) with ([34] ++ rev m ++ [34]).
  rewrite !rev_app_distr. cbn [rev app]. by rewrite rev_involutive.
Qed.

(** X26: When the second line of the response holds [MAC:] once, followed by
    the address between two quotes, [get_MAC_address] returns the address
    without the quotes.  (The letter M is in neither part, so that [MAC:]
    is found once.) *)
Theorem get_MAC_address_quoted (s : Serial) (echo before mac : list Z)
    (more : list (list Z)) :
  (at_command (str "CIPSTAMAC?") s).1
  = Ok (echo :: (before ++ str "MAC:" ++ [34] ++ mac ++ [34]) :: more) ->
  77 ∉ before -> 77 ∉ mac ->
  (get_MAC_address s).1 = Ok mac.
Proof.
  intros Hat Hb Hm. unfold get_MAC_address. rewrite io_bind_run.
  destruct (at_command (str "CIPSTAMAC?") s) as [[lines|e] s'];
    cbn [fst] in Hat; [|discriminate].
  assert (lines = echo :: (before ++ str "MAC:" ++ [34] ++ mac ++ [34]) :: more)
    as -> by congruence.
  clear Hat.
  replace ((echo :: (before ++ str "MAC:" ++ [34] ++ mac ++ [34]) :: more)
             !! 1%nat)
    with (Some (before ++ str "MAC:" ++ [34] ++ mac ++ [34])) by reflexivity.
  change (str "MAC:") with (77 :: [65; 67; 58]).
  rewrite (split_at_first 77 [65; 67; 58] before ([34] ++ mac ++ [34])); [|done|].
  - replace ([before; [34] ++ mac ++ [34]] !! 1%nat)
      with (Some ([34] ++ mac ++ [34])) by reflexivity.
    rewrite strip_quoted. unfold mret, io_ret. cbn [fst]. f_equal.
    replace (List.length ([34%Z] ++ mac ++ [34%Z]) - 1)%nat
      with (List.length ([34] ++ mac))
      by (rewrite !length_app; cbn [List.length]; lia).
    rewrite (app_assoc [34] mac [34]), take_app_length. reflexivity.
  - intros [[=]|[Hin|[=]%list_elem_of_singleton]%elem_of_app]%elem_of_cons.
    done.
Qed.

Lemma get_MAC_address_quoted_witness :
  (get_MAC_address
     (MkSerial [] (map Some (b "AT+CIPSTAMAC?" ++ CRLF ++ b "+CIPSTAMAC:"
                             ++ quoted "aa:bb:cc:dd:ee:ff" ++ CRLF ++ CRLF
                             ++ b "OK" ++ CRLF)))).1
  = Ok (str "aa:bb:cc:dd:ee:ff").
Proof.
  apply (get_MAC_address_quoted _ (str "AT+CIPSTAMAC?") (str "+CIPSTA")
           (str "aa:bb:cc:dd:ee:ff") [str ""; str "OK"; str ""]).
  - reflexivity.
  - vm_compute. intros H. repeat (apply elem_of_cons in H as [[=]|H]).
    by apply elem_of_nil in H.
  - vm_compute. intros H. repeat (apply elem_of_cons in H as [[=]|H]).
    by apply elem_of_nil in H.
Defined.

Lemma split_crlf_one_line text : 10 ∉ text -> split_crlf text = [text].
Proof.
  induction text as [|c [|c' more'] IH]; intros Hlf; [done..|].
  apply not_elem_of_cons in Hlf as [Hc Hlf].
  rewrite split_crlf_step.
  assert (c' <> 10) as Hc' by (intros ->; apply Hlf; left).
  rewrite (proj2 (Z.eqb_neq c' 10)) by done. rewrite andb_false_r.
  by rewrite IH.
Qed.

Lemma at_command_ascii_response command encoded s :
  encode_ascii command = Ok encoded ->
  forallb is_ascii (read_until_idle (incoming s)).1 = true ->
  (at_command command s).1
  = Ok (split_crlf (map byte.unsigned (read_until_idle (incoming s)).1)).
Proof.
  intros He Hascii. rewrite at_command_spec, He. cbn [fst].
  by rewrite decode_ascii_Ok.
Qed.

Lemma at_command_undecodable command encoded s :
  encode_ascii command = Ok encoded ->
  forallb is_ascii (read_until_idle (incoming s)).1 = false ->
  (at_command command s).1 = Err UnicodeDecodeError.
Proof.
  intros He Hascii. rewrite at_command_spec, He. cbn [fst].
  by rewrite decode_ascii_Err.
Qed.

Lemma get_wifi_status_run s :
  (get_wifi_status s).1
  = (response ← (at_command (str "CWJAP?") s).1;
     line ← from_option Ok (Err IndexError) (response !! 1%nat);
     Csv.DictReader_next AP_STATUS_FIELDS
       (Csv.reader (map (fun c => [c]) (drop 7 line)))).
Proof.
  unfold get_wifi_status. rewrite io_bind_run.
  destruct (at_command (str "CWJAP?") s) as [[response|e] s']; [|reflexivity].
  cbn [fst mbind result_bind]. by destruct (response !! 1%nat).
Qed.

Lemma get_MAC_address_run s :
  (get_MAC_address s).1
  = (response ← (at_command (str "CIPSTAMAC?") s).1;
     line ← from_option Ok (Err IndexError) (response !! 1%nat);
     piece ← from_option Ok (Err IndexError)
               (split (str "MAC:") line !! 1%nat);
     Ok (drop 1 (take (List.length (strip piece) - 1) (strip piece)))).
Proof.
  unfold get_MAC_address. rewrite io_bind_run.
  destruct (at_command (str "CIPSTAMAC?") s) as [[response|e] s'];
    [|reflexivity].
  cbn [fst mbind result_bind].
  destruct (response !! 1%nat) as [line|]; [|reflexivity].
  cbn [from_option mbind result_bind].
  by destruct (split (str "MAC:") line !! 1%nat).
Qed.

Lemma no_line_feed response :
  Byte.x0a ∉ response -> 10 ∉ map byte.unsigned response.
Proof.
  intros Hlf Hin. apply list_elem_of_fmap in Hin as (x & Hx & Hin).
  apply Hlf. replace Byte.x0a with x; [exact Hin|].
  apply byte.unsigned_inj. by rewrite <- Hx.
Qed.

(** X27: [get_wifi_status] and [get_MAC_address] both take the second line
    of the response.  A response with a byte above 0x7F makes both raise
    [UnicodeDecodeError]; a response of ASCII bytes without a line feed is
    one line, and then both raise [IndexError], as they do for an
    instrument that stays silent; and for a response of ASCII bytes whose
    second line has no [MAC:], [get_MAC_address] raises [IndexError]. *)
Theorem second_line_missing (s : Serial) :
  let response := (read_until_idle (incoming s)).1 in
  (forallb is_ascii response = false ->
   (get_wifi_status s).1 = Err UnicodeDecodeError
   /\ (get_MAC_address s).1 = Err UnicodeDecodeError)
  /\ (forallb is_ascii response = true -> Byte.x0a ∉ response ->
      (get_wifi_status s).1 = Err IndexError
      /\ (get_MAC_address s).1 = Err IndexError)
  /\ (forallb is_ascii response = true ->
      forall line,
        split_crlf (map byte.unsigned response) !! 1%nat = Some line ->
        ~ contains (str "MAC:") line ->
        (get_MAC_address s).1 = Err IndexError).
Proof.
  cbn zeta. rewrite get_wifi_status_run, get_MAC_address_run.
  split; [|split].
  - intros Hascii.
    by rewrite (at_command_undecodable (str "CWJAP?") _ s eq_refl Hascii),
               (at_command_undecodable (str "CIPSTAMAC?") _ s eq_refl Hascii).
  - intros Hascii Hlf.
    rewrite (at_command_ascii_response (str "CWJAP?") _ s eq_refl Hascii),
            (at_command_ascii_response (str "CIPSTAMAC?") _ s eq_refl Hascii).
    by rewrite split_crlf_one_line by (by apply no_line_feed).
  - intros Hascii line Hline Hno.
    rewrite (at_command_ascii_response (str "CIPSTAMAC?") _ s eq_refl Hascii).
    cbn [mbind result_bind]. rewrite Hline. cbn [from_option mbind result_bind].
    destruct (split (str "MAC:") line !! 1%nat) as [piece|] eqn:Hsplit;
      [|reflexivity].
    contradict Hno. exact (split_from_second _ _ _ _ Hsplit).
Qed.

Lemma second_line_missing_witness :
  ((get_wifi_status (MkSerial [] [Some Byte.xff])).1 = Err UnicodeDecodeError
   /\ (get_MAC_address (MkSerial [] [Some Byte.xff])).1 = Err UnicodeDecodeError)
  /\ ((get_wifi_status (MkSerial [] [])).1 = Err IndexError
      /\ (get_MAC_address (MkSerial [] [])).1 = Err IndexError)
  /\ ((get_wifi_status (MkSerial [] (map Some (b "ERROR")))).1 = Err IndexError
      /\ (get_MAC_address (MkSerial [] (map Some (b "ERROR")))).1
         = Err IndexError)
  /\ (get_MAC_address
        (MkSerial [] (map Some (b "AT+CIPSTAMAC?" ++ CRLF ++ b "busy p..."
                                ++ CRLF)))).1
     = Err IndexError.
Proof.
  split; [|split; [|split]].
  - apply (proj1 (second_line_missing (MkSerial [] [Some Byte.xff]))).
    reflexivity.
  - apply (proj1 (proj2 (second_line_missing (MkSerial [] [])))).
    + reflexivity.
    + cbn. apply not_elem_of_nil.
  - apply (proj1 (proj2 (second_line_missing
                           (MkSerial [] (map Some (b "ERROR")))))).
    + reflexivity.
    + vm_compute. intros H. repeat (apply elem_of_cons in H as [[=]|H]).
      by apply elem_of_nil in H.
  - apply (proj2 (proj2 (second_line_missing
             (MkSerial [] (map Some (b "AT+CIPSTAMAC?" ++ CRLF ++ b "busy p..."
                                     ++ CRLF)))))
             eq_refl (str "busy p...") eq_refl).
    intros (before & after & Habs).
    assert (77 ∈ str "busy p...") as Hin.
    { rewrite Habs. apply elem_of_app. right. apply list_elem_of_here. }
    vm_compute in Hin. repeat (apply elem_of_cons in Hin as [[=]|Hin]).
    by apply elem_of_nil in Hin.
Defined.

(** ** The list of networks *)

Lemma mapM_IndexError {A B} (f : A -> result B) (l : list A) (x : A) :
  (forall y e, f y = Err e -> e = IndexError) ->
  x ∈ l -> f x = Err IndexError ->
  mapM f l = Err IndexError.
Proof.
  intros Hall Hin Hx. induction l as [|y l IH]; [by apply elem_of_nil in Hin|].
  cbn [mapM]. destruct (f y) as [v|e] eqn:Hy.
  - cbn [mbind result_bind].
    apply elem_of_cons in Hin as [->|Hin]; [congruence|].
    by rewrite IH.
  - cbn [mbind result_bind]. by rewrite (Hall y e Hy).
Qed.

Lemma split_crlf_ends_upto n : forall text,
  (List.length text <= n)%nat ->
  exists lines, split_crlf (text ++ [13; 10]) = lines ++ [[]] /\ lines <> [].
Proof.
  induction n as [|n IH]; intros [|c [|c' more']] Hlen;
    cbn [List.length] in Hlen; try lia.
  - by exists [[]].
  - by exists [[]].
  - cbn [app]. rewrite split_crlf_step.
    replace ((c =? 13) && (13 =? 10)) with false by (by rewrite andb_false_r).
    by exists [[c]].
  - cbn [app]. rewrite split_crlf_step.
    destruct ((c =? 13) && (c' =? 10)).
    + destruct (IH more' ltac:(lia)) as (lines & -> & Hne).
      by exists ([] :: lines).
    + destruct (IH (c' :: more') ltac:(cbn; lia)) as (lines & Hlines & Hne).
      cbn [app] in Hlines. rewrite Hlines.
      destruct lines as [|l ls]; [done|].
      cbn [app push_char]. by exists ((c :: l) :: ls).
Qed.

Lemma list_wifi_networks_data_run s :
  (list_wifi_networks_data s).1
  = (raw_response ← (at_command (str "CWLAP") s).1;
     mapM (fun d =>
             match split (str ":(") d !! 1%nat with
             | None => Err IndexError
             | Some piece => Ok (take (List.length piece - 1) piece)
             end)
          (drop 1 raw_response)).
Proof.
  unfold list_wifi_networks_data. rewrite io_bind_run.
  by destruct (at_command (str "CWLAP") s) as [[response|e] s'].
Qed.

(** X28: [list_wifi_networks] raises [UnicodeDecodeError] on a response with
    a byte above 0x7F.  On a response of ASCII bytes it raises [IndexError]
    as soon as a line after the first has no [:(] in it, before any line is
    read as a row; and a response of ASCII bytes that ends in CR LF has
    such a line, the empty last one. *)
Theorem list_wifi_networks_needs_marker (s : Serial) :
  let response := (read_until_idle (incoming s)).1 in
  (forallb is_ascii response = false ->
   (list_wifi_networks_data s).1 = Err UnicodeDecodeError)
  /\ (forallb is_ascii response = true ->
      (exists line,
          line ∈ drop 1 (split_crlf (map byte.unsigned response))
          /\ ~ contains (str ":(") line) ->
      (list_wifi_networks_data s).1 = Err IndexError)
  /\ (forallb is_ascii response = true ->
      (exists data, response = data ++ CRLF) ->
      (list_wifi_networks_data s).1 = Err IndexError).
Proof.
  cbn zeta. rewrite list_wifi_networks_data_run.
  assert (forallb is_ascii (read_until_idle (incoming s)).1 = true ->
          (exists line,
              line ∈ drop 1 (split_crlf
                               (map byte.unsigned (read_until_idle (incoming s)).1))
              /\ ~ contains (str ":(") line) ->
          (raw_response ← (at_command (str "CWLAP") s).1;
           mapM (fun d =>
                   match split (str ":(") d !! 1%nat with
                   | None => Err IndexError
                   | Some piece => Ok (take (List.length piece - 1) piece)
                   end)
                (drop 1 raw_response)) = Err IndexError) as Hmarker.
  { intros Hascii (line & Hin & Hno).
    rewrite (at_command_ascii_response (str "CWLAP") _ s eq_refl Hascii).
    cbn [mbind result_bind].
    apply (mapM_IndexError _ _ line); [|exact Hin|].
    - intros y e. destruct (split (str ":(") y !! 1%nat); [discriminate|].
      by intros [= <-].
    - destruct (split (str ":(") line !! 1%nat) as [piece|] eqn:Hsplit;
        [|reflexivity].
      contradict Hno. exact (split_from_second _ _ _ _ Hsplit). }
  split; [|split; [exact Hmarker|]].
  - intros Hascii.
    by rewrite (at_command_undecodable (str "CWLAP") _ s eq_refl Hascii).
  - intros Hascii [data Hdata]. apply Hmarker; [exact Hascii|].
    exists []. rewrite Hdata, map_app.
    change (map byte.unsigned CRLF) with [13; 10].
    destruct (split_crlf_ends_upto (List.length (map byte.unsigned data))
                (map byte.unsigned data) (le_n _)) as (ls & -> & Hne).
    split.
    + destruct ls as [|l ls]; [done|]. cbn [app drop].
      apply elem_of_app. right. apply list_elem_of_here.
    + intros (before & after & Habs). by destruct before.
Qed.

Lemma list_wifi_networks_needs_marker_witness :
  (list_wifi_networks_data
     (MkSerial [] (map Some (b "AT+CWLAP" ++ CRLF ++ b "+CWLAP:(3,"
                             ++ quoted "Net1" ++ b ",-45)" ++ CRLF)))).1
  = Err IndexError
  /\ (list_wifi_networks_data
        (MkSerial [] (map Some ([Byte.xff] ++ CRLF)))).1
     = Err UnicodeDecodeError.
Proof.
  split.
  - apply (proj2 (proj2 (list_wifi_networks_needs_marker
             (MkSerial [] (map Some (b "AT+CWLAP" ++ CRLF ++ b "+CWLAP:(3,"
                                     ++ quoted "Net1" ++ b ",-45)" ++ CRLF))))));
      [reflexivity|].
    exists (b "AT+CWLAP" ++ CRLF ++ b "+CWLAP:(3," ++ quoted "Net1"
            ++ b ",-45)").
    reflexivity.
  - apply (proj1 (list_wifi_networks_needs_marker
                    (MkSerial [] (map Some ([Byte.xff] ++ CRLF))))).
    reflexivity.
Defined.
